(** * NoDynamicBase: clearing IMAGE_DLLCHARACTERISTICS_DYNAMIC_BASE in a PE header

    A shallow embedding of [fix_pe_clear_dynamic_base] (NoDynamicBase.cpp),
    the only function of the program that looks at the bytes of the file.
    The buffer is a list of bytes addressed by a signed offset from [buf];
    every load and store of the C code is a load or store of the memory
    monad below, which stops with [OutOfBounds] as soon as an access leaves
    [0, length buf). *)

From Stdlib Require Import ZArith Lia String.
From Stdlib.Strings Require Import Byte.
From stdpp Require Import base list.

Local Open Scope Z_scope.

(** ** The Windows declarations the function uses (winnt.h)

    The source includes <windows.h>; the structures it overlays on the
    buffer are transcribed here field by field, in declaration order, with
    the size of each field in bytes. None of them has padding: the DOS
    header is declared under pack(2), the others under pack(4), and every
    field falls on a multiple of its packing. *)
Module Winnt.

Definition BYTE : Z := 1.
Definition WORD : Z := 2.
Definition DWORD : Z := 4.
Definition LONG : Z := 4.
Definition ULONGLONG : Z := 8.

Definition field : Type := string * Z.

Definition sizeof (fs : list field) : Z :=
  foldr (fun f acc => snd f + acc) 0 fs.

(** Offset of the first field called [name]: the sizes before it. *)
Fixpoint offsetof (fs : list field) (name : string) : Z :=
  match fs with
  | [] => 0
  | f :: rest =>
      if String.eqb (fst f) name then 0 else snd f + offsetof rest name
  end.

Definition IMAGE_DOS_HEADER : list field :=
  [ ("e_magic", WORD); ("e_cblp", WORD); ("e_cp", WORD); ("e_crlc", WORD);
    ("e_cparhdr", WORD); ("e_minalloc", WORD); ("e_maxalloc", WORD);
    ("e_ss", WORD); ("e_sp", WORD); ("e_csum", WORD); ("e_ip", WORD);
    ("e_cs", WORD); ("e_lfarlc", WORD); ("e_ovno", WORD);
    ("e_res", 4 * WORD); ("e_oemid", WORD); ("e_oeminfo", WORD);
    ("e_res2", 10 * WORD); ("e_lfanew", LONG) ]%string.

Definition IMAGE_FILE_HEADER : list field :=
  [ ("Machine", WORD); ("NumberOfSections", WORD);
    ("TimeDateStamp", DWORD); ("PointerToSymbolTable", DWORD);
    ("NumberOfSymbols", DWORD); ("SizeOfOptionalHeader", WORD);
    ("Characteristics", WORD) ]%string.

Definition IMAGE_DATA_DIRECTORY : list field :=
  [ ("VirtualAddress", DWORD); ("Size", DWORD) ]%string.

Definition IMAGE_NUMBEROF_DIRECTORY_ENTRIES : Z := 16.

Definition IMAGE_OPTIONAL_HEADER32 : list field :=
  [ ("Magic", WORD); ("MajorLinkerVersion", BYTE);
    ("MinorLinkerVersion", BYTE); ("SizeOfCode", DWORD);
    ("SizeOfInitializedData", DWORD); ("SizeOfUninitializedData", DWORD);
    ("AddressOfEntryPoint", DWORD); ("BaseOfCode", DWORD);
    ("BaseOfData", DWORD); ("ImageBase", DWORD);
    ("SectionAlignment", DWORD); ("FileAlignment", DWORD);
    ("MajorOperatingSystemVersion", WORD);
    ("MinorOperatingSystemVersion", WORD);
    ("MajorImageVersion", WORD); ("MinorImageVersion", WORD);
    ("MajorSubsystemVersion", WORD); ("MinorSubsystemVersion", WORD);
    ("Win32VersionValue", DWORD); ("SizeOfImage", DWORD);
    ("SizeOfHeaders", DWORD); ("CheckSum", DWORD); ("Subsystem", WORD);
    ("DllCharacteristics", WORD); ("SizeOfStackReserve", DWORD);
    ("SizeOfStackCommit", DWORD); ("SizeOfHeapReserve", DWORD);
    ("SizeOfHeapCommit", DWORD); ("LoaderFlags", DWORD);
    ("NumberOfRvaAndSizes", DWORD);
    ("DataDirectory",
      IMAGE_NUMBEROF_DIRECTORY_ENTRIES * sizeof IMAGE_DATA_DIRECTORY)
  ]%string.

Definition IMAGE_OPTIONAL_HEADER64 : list field :=
  [ ("Magic", WORD); ("MajorLinkerVersion", BYTE);
    ("MinorLinkerVersion", BYTE); ("SizeOfCode", DWORD);
    ("SizeOfInitializedData", DWORD); ("SizeOfUninitializedData", DWORD);
    ("AddressOfEntryPoint", DWORD); ("BaseOfCode", DWORD);
    ("ImageBase", ULONGLONG);
    ("SectionAlignment", DWORD); ("FileAlignment", DWORD);
    ("MajorOperatingSystemVersion", WORD);
    ("MinorOperatingSystemVersion", WORD);
    ("MajorImageVersion", WORD); ("MinorImageVersion", WORD);
    ("MajorSubsystemVersion", WORD); ("MinorSubsystemVersion", WORD);
    ("Win32VersionValue", DWORD); ("SizeOfImage", DWORD);
    ("SizeOfHeaders", DWORD); ("CheckSum", DWORD); ("Subsystem", WORD);
    ("DllCharacteristics", WORD); ("SizeOfStackReserve", ULONGLONG);
    ("SizeOfStackCommit", ULONGLONG); ("SizeOfHeapReserve", ULONGLONG);
    ("SizeOfHeapCommit", ULONGLONG); ("LoaderFlags", DWORD);
    ("NumberOfRvaAndSizes", DWORD);
    ("DataDirectory",
      IMAGE_NUMBEROF_DIRECTORY_ENTRIES * sizeof IMAGE_DATA_DIRECTORY)
  ]%string.

Definition IMAGE_NT_HEADERS32 : list field :=
  [ ("Signature", DWORD); ("FileHeader", sizeof IMAGE_FILE_HEADER);
    ("OptionalHeader", sizeof IMAGE_OPTIONAL_HEADER32) ]%string.

Definition IMAGE_NT_HEADERS64 : list field :=
  [ ("Signature", DWORD); ("FileHeader", sizeof IMAGE_FILE_HEADER);
    ("OptionalHeader", sizeof IMAGE_OPTIONAL_HEADER64) ]%string.

Definition IMAGE_DOS_SIGNATURE : Z := 0x5A4D.            (* "MZ" *)
Definition IMAGE_NT_SIGNATURE : Z := 0x00004550.         (* "PE\0\0" *)
Definition IMAGE_NT_OPTIONAL_HDR32_MAGIC : Z := 0x10b.
Definition IMAGE_NT_OPTIONAL_HDR64_MAGIC : Z := 0x20b.

End Winnt.
Import Winnt.

(** Line 21 of the source. *)
Definition IMAGE_DLLCHARACTERISTICS_DYNAMIC_BASE : Z := 0x0040.

(** ** Bytes and machine integers *)

Definition Z_of_byte (b : byte) : Z := Z.of_N (Byte.to_N b).

Definition byte_of_Z (z : Z) : byte :=
  default Byte.x00 (Byte.of_N (Z.to_N (z mod 256))).

(** Width of [size_t]: the source is built for x86_64 (line 9). *)
Definition size_t_bits : Z := 64.

Definition to_size_t (z : Z) : Z := z mod 2 ^ size_t_bits.

(** A 32-bit pattern read as a [LONG] (two's complement). *)
Definition to_LONG (u : Z) : Z :=
  if u <? 2 ^ 31 then u else u - 2 ^ 32.

(** A value converted to [WORD] (unsigned short). *)
Definition to_WORD (z : Z) : Z := z mod 2 ^ 16.

(** ** The buffer as memory

    An access of [width] bytes at offset [off] from [buf] is defined only
    inside the buffer. *)

Inductive exec (A : Type) : Type :=
| Done (a : A) (m : list byte)
| OutOfBounds (off width : Z).
Arguments Done {A} a m.
Arguments OutOfBounds {A} off width.

Definition M (A : Type) : Type := list byte -> exec A.

Definition ret {A} (a : A) : M A := fun m => Done a m.

Definition bind {A B} (c : M A) (k : A -> M B) : M B :=
  fun m =>
    match c m with
    | Done a m' => k a m'
    | OutOfBounds off width => OutOfBounds off width
    end.

Notation "'let*' x ':=' c 'in' k" := (bind c (fun x => k))
  (at level 10, x name, c at level 100, k at level 200).

Definition in_bounds (m : list byte) (off width : Z) : bool :=
  (0 <=? off) && (off + width <=? Z.of_nat (length m)).

Definition byte_at (m : list byte) (off : Z) : Z :=
  match m !! Z.to_nat off with
  | Some b => Z_of_byte b
  | None => 0
  end.

(** Little-endian unsigned readings of the bytes at [off]. *)
Definition u16_at (m : list byte) (off : Z) : Z :=
  byte_at m off + 2 ^ 8 * byte_at m (off + 1).

Definition u32_at (m : list byte) (off : Z) : Z :=
  byte_at m off + 2 ^ 8 * byte_at m (off + 1)
  + 2 ^ 16 * byte_at m (off + 2) + 2 ^ 24 * byte_at m (off + 3).

Definition load_WORD (off : Z) : M Z :=
  fun m =>
    if in_bounds m off WORD then Done (u16_at m off) m
    else OutOfBounds off WORD.

Definition load_DWORD (off : Z) : M Z :=
  fun m =>
    if in_bounds m off DWORD then Done (u32_at m off) m
    else OutOfBounds off DWORD.

Definition load_LONG (off : Z) : M Z :=
  fun m =>
    if in_bounds m off LONG then Done (to_LONG (u32_at m off)) m
    else OutOfBounds off LONG.

Definition put_u16 (m : list byte) (off : Z) (v : Z) : list byte :=
  <[Z.to_nat (off + 1) := byte_of_Z (v / 2 ^ 8)]>
    (<[Z.to_nat off := byte_of_Z v]> m).

Definition store_WORD (off : Z) (v : Z) : M unit :=
  fun m =>
    if in_bounds m off WORD then Done tt (put_u16 m off v)
    else OutOfBounds off WORD.

(** ** fix_pe_clear_dynamic_base (lines 65-113) *)

(** What the caller gets back: the returned [bool], [*modified], and the
    text copied to [reason] when there is one. *)
Record result : Type := Result {
  returned : bool;
  modified : bool;
  reason : option string
}.

Definition file_too_small : string := "file too small".
Definition not_a_PE_file : string := "not a PE file (MZ missing)".
Definition invalid_e_lfanew : string := "invalid e_lfanew".
Definition PE_signature_missing : string := "PE signature missing".
Definition unknown_optional_header_type : string :=
  "unknown PE optional header type".

(** The spec's names of the five failures. *)
Definition TooSmall : result := Result false false (Some file_too_small).
Definition NotAPEFile : result := Result false false (Some not_a_PE_file).
Definition InvalidHeaderOffset : result :=
  Result false false (Some invalid_e_lfanew).
Definition MissingPESignature : result :=
  Result false false (Some PE_signature_missing).
Definition UnknownOptionalHeaderType : result :=
  Result false false (Some unknown_optional_header_type).
Definition Modified : result := Result true true None.
Definition Unmodified : result := Result true false None.

(** Offsets of the members the function names, from the structures. *)
Definition dos_e_magic : Z := offsetof IMAGE_DOS_HEADER "e_magic".
Definition dos_e_lfanew : Z := offsetof IMAGE_DOS_HEADER "e_lfanew".
Definition nt_Signature : Z := offsetof IMAGE_NT_HEADERS64 "Signature".
Definition nt_OptionalHeader_Magic : Z :=
  offsetof IMAGE_NT_HEADERS64 "OptionalHeader"
  + offsetof IMAGE_OPTIONAL_HEADER64 "Magic".
Definition nt_OptionalHeader_DllCharacteristics : Z :=
  offsetof IMAGE_NT_HEADERS64 "OptionalHeader"
  + offsetof IMAGE_OPTIONAL_HEADER64 "DllCharacteristics".
Definition nt32_OptionalHeader_DllCharacteristics : Z :=
  offsetof IMAGE_NT_HEADERS32 "OptionalHeader"
  + offsetof IMAGE_OPTIONAL_HEADER32 "DllCharacteristics".

(** [old & ~IMAGE_DLLCHARACTERISTICS_DYNAMIC_BASE], converted to WORD. *)
Definition clear_dynamic_base (old : Z) : Z :=
  to_WORD (Z.land old (Z.lnot IMAGE_DLLCHARACTERISTICS_DYNAMIC_BASE)).

Definition fix_pe_clear_dynamic_base (size : Z) : M result :=
  let modified := false in
  if size <? sizeof IMAGE_DOS_HEADER then
    ret (Result false modified (Some file_too_small))
  else
    let* e_magic := load_WORD dos_e_magic in
    if negb (e_magic =? IMAGE_DOS_SIGNATURE) then
      ret (Result false modified (Some not_a_PE_file))
    else
      let* e_lfanew := load_LONG dos_e_lfanew in
      if to_size_t (to_size_t e_lfanew + sizeof IMAGE_NT_HEADERS64) >? size then
        ret (Result false modified (Some invalid_e_lfanew))
      else
        let nt := e_lfanew in
        let* Signature := load_DWORD (nt + nt_Signature) in
        if negb (Signature =? IMAGE_NT_SIGNATURE) then
          ret (Result false modified (Some PE_signature_missing))
        else
          let* magic := load_WORD (nt + nt_OptionalHeader_Magic) in
          if magic =? IMAGE_NT_OPTIONAL_HDR64_MAGIC then
            let* old := load_WORD (nt + nt_OptionalHeader_DllCharacteristics) in
            if negb (Z.land old IMAGE_DLLCHARACTERISTICS_DYNAMIC_BASE =? 0) then
              let* _ := store_WORD (nt + nt_OptionalHeader_DllCharacteristics)
                         (clear_dynamic_base old) in
              ret (Result true true None)
            else
              ret (Result true modified None)
          else if magic =? IMAGE_NT_OPTIONAL_HDR32_MAGIC then
            let nt32 := nt in
            let* old := load_WORD (nt32 + nt32_OptionalHeader_DllCharacteristics) in
            if negb (Z.land old IMAGE_DLLCHARACTERISTICS_DYNAMIC_BASE =? 0) then
              let* _ := store_WORD (nt32 + nt32_OptionalHeader_DllCharacteristics)
                         (clear_dynamic_base old) in
              ret (Result true true None)
            else
              ret (Result true modified None)
          else
            ret (Result false modified (Some unknown_optional_header_type)).

(** The patch operation on a buffer: the caller (process_file, line 127)
    passes the buffer together with its length. *)
Definition patch (buf : list byte) : exec result :=
  fix_pe_clear_dynamic_base (Z.of_nat (length buf)) buf.

(** Calling it again on what the first call left in the buffer. *)
Definition patch_twice (buf : list byte) : exec result :=
  let size := Z.of_nat (length buf) in
  (let* _ := fix_pe_clear_dynamic_base size in
   fix_pe_clear_dynamic_base size) buf.

(** ** Vocabulary of the statements *)

(** The value of [dos->e_lfanew] and the place of the DllCharacteristics
    member the function goes to, as offsets from [buf]. *)
Definition e_lfanew_of (buf : list byte) : Z :=
  to_LONG (u32_at buf dos_e_lfanew).

Definition magic_of (buf : list byte) : Z :=
  u16_at buf (e_lfanew_of buf + nt_OptionalHeader_Magic).

Definition DllCharacteristics_offset (buf : list byte) : Z :=
  if magic_of buf =? IMAGE_NT_OPTIONAL_HDR64_MAGIC
  then e_lfanew_of buf + nt_OptionalHeader_DllCharacteristics
  else e_lfanew_of buf + nt32_OptionalHeader_DllCharacteristics.

(** "MZ" *)
Definition MZ : list byte := [Byte.x4d; Byte.x5a].

(** Indices at which two buffers hold different bytes. *)
Fixpoint changed_from (i : nat) (old new : list byte) : list nat :=
  match old, new with
  | a :: old', b :: new' =>
      if Byte.eqb a b then changed_from (S i) old' new'
      else i :: changed_from (S i) old' new'
  | _, _ => []
  end.

Definition changed (old new : list byte) : list nat := changed_from 0 old new.

(** Indices of the bytes a call of the patch operation changes. *)
Definition mutated (buf : list byte) : list nat :=
  match patch buf with
  | Done _ buf' => changed buf buf'
  | OutOfBounds _ _ => []
  end.

(** ** Synthetic files *)

Fixpoint le_bytes (n : nat) (v : Z) : list byte :=
  match n with
  | O => []
  | S n' => byte_of_Z v :: le_bytes n' (v / 2 ^ 8)
  end.

Definition zeros (n : nat) : list byte := replicate n Byte.x00.

(** A DOS header with the given [e_lfanew], followed by [n] zero bytes. *)
Definition dos_stub (lfanew : Z) (n : nat) : list byte :=
  le_bytes 2 IMAGE_DOS_SIGNATURE ++ zeros 58 ++ le_bytes 4 lfanew ++ zeros n.

(** Headers only: a DOS header with [e_lfanew = 64], the PE signature, an
    empty file header, and 240 bytes that hold an optional header with the
    given [Magic] and [DllCharacteristics] and zeros elsewhere (for PE32 the
    optional header is the first 224 of them). 328 bytes. *)
Definition synthetic_pe (magic dllchars : Z) : list byte :=
  dos_stub 64 0
  ++ le_bytes 4 IMAGE_NT_SIGNATURE ++ zeros 20
  ++ le_bytes 2 magic ++ zeros 68 ++ le_bytes 2 dllchars ++ zeros 168.

(** A 264-byte file whose [e_lfanew] bytes are FF FF FF FF. *)
Definition stub_high_lfanew : list byte := dos_stub 0xFFFFFFFF 200.

Definition pe32_flag_set : list byte :=
  synthetic_pe IMAGE_NT_OPTIONAL_HDR32_MAGIC 0x0140.
Definition pe32_flag_clear : list byte :=
  synthetic_pe IMAGE_NT_OPTIONAL_HDR32_MAGIC 0x0100.
Definition pe64_flag_set : list byte :=
  synthetic_pe IMAGE_NT_OPTIONAL_HDR64_MAGIC 0x0140.
Definition pe64_flag_clear : list byte :=
  synthetic_pe IMAGE_NT_OPTIONAL_HDR64_MAGIC 0x0100.
Definition pe_unknown_magic : list byte := synthetic_pe 0x30b 0x0140.

(** The paths through the function, one constructor per [return]. *)
Inductive path (buf : list byte) : exec result -> Prop :=
| path_too_small :
    Z.of_nat (length buf) < 64 ->
    path buf (Done TooSmall buf)
| path_not_pe :
    64 <= Z.of_nat (length buf) ->
    u16_at buf 0 <> IMAGE_DOS_SIGNATURE ->
    path buf (Done NotAPEFile buf)
| path_invalid_offset :
    64 <= Z.of_nat (length buf) ->
    u16_at buf 0 = IMAGE_DOS_SIGNATURE ->
    to_size_t (to_size_t (e_lfanew_of buf) + 264) > Z.of_nat (length buf) ->
    path buf (Done InvalidHeaderOffset buf)
| path_out_of_bounds :
    64 <= Z.of_nat (length buf) ->
    u16_at buf 0 = IMAGE_DOS_SIGNATURE ->
    to_size_t (to_size_t (e_lfanew_of buf) + 264) <= Z.of_nat (length buf) ->
    e_lfanew_of buf < 0 ->
    path buf (OutOfBounds (e_lfanew_of buf) 4)
| path_no_signature :
    u16_at buf 0 = IMAGE_DOS_SIGNATURE ->
    0 <= e_lfanew_of buf ->
    e_lfanew_of buf + 264 <= Z.of_nat (length buf) ->
    u32_at buf (e_lfanew_of buf) <> IMAGE_NT_SIGNATURE ->
    path buf (Done MissingPESignature buf)
| path_unknown_magic :
    u16_at buf 0 = IMAGE_DOS_SIGNATURE ->
    0 <= e_lfanew_of buf ->
    e_lfanew_of buf + 264 <= Z.of_nat (length buf) ->
    u32_at buf (e_lfanew_of buf) = IMAGE_NT_SIGNATURE ->
    magic_of buf <> IMAGE_NT_OPTIONAL_HDR64_MAGIC ->
    magic_of buf <> IMAGE_NT_OPTIONAL_HDR32_MAGIC ->
    path buf (Done UnknownOptionalHeaderType buf)
| path_unmodified :
    u16_at buf 0 = IMAGE_DOS_SIGNATURE ->
    0 <= e_lfanew_of buf ->
    e_lfanew_of buf + 264 <= Z.of_nat (length buf) ->
    u32_at buf (e_lfanew_of buf) = IMAGE_NT_SIGNATURE ->
    magic_of buf = IMAGE_NT_OPTIONAL_HDR64_MAGIC
    \/ magic_of buf = IMAGE_NT_OPTIONAL_HDR32_MAGIC ->
    Z.land (u16_at buf (e_lfanew_of buf + 94))
           IMAGE_DLLCHARACTERISTICS_DYNAMIC_BASE = 0 ->
    path buf (Done Unmodified buf)
| path_modified :
    u16_at buf 0 = IMAGE_DOS_SIGNATURE ->
    0 <= e_lfanew_of buf ->
    e_lfanew_of buf + 264 <= Z.of_nat (length buf) ->
    u32_at buf (e_lfanew_of buf) = IMAGE_NT_SIGNATURE ->
    magic_of buf = IMAGE_NT_OPTIONAL_HDR64_MAGIC
    \/ magic_of buf = IMAGE_NT_OPTIONAL_HDR32_MAGIC ->
    Z.land (u16_at buf (e_lfanew_of buf + 94))
           IMAGE_DLLCHARACTERISTICS_DYNAMIC_BASE <> 0 ->
    path buf
      (Done Modified
         (put_u16 buf (e_lfanew_of buf + 94)
            (clear_dynamic_base (u16_at buf (e_lfanew_of buf + 94))))).

(** ** The file functions and process_file (lines 25-63 and 115-147)

    The calls into the C runtime and the system are events of a trace; what
    they answer is given by a [runtime], so that every property below holds
    whatever the file system does. *)

(** minwindef.h *)
Definition MAX_PATH : Z := 260.

Record runtime : Type := Runtime {
  (** [_wfopen(path, L"rb")] returned a stream *)
  fopen_rb : bool;
  (** what [ftell] returned after [fseek(f, 0, SEEK_END)] *)
  ftell_end : Z;
  (** [malloc(sz)] returned a block *)
  malloc_ok : bool;
  (** the bytes [fread] stored in the block; it returns their number *)
  fread_data : list byte;
  (** [_wfopen(path, L"rb+")] returned a stream *)
  fopen_rb_plus : bool
}.

Inductive event : Type :=
| Fopen (path mode : string)
| Fclose
| Malloc (size : Z)
| Free
| CopyFileW (existing new : string)
| Fwrite (data : list byte)
| MessageBoxW (text : string).

(** A run either comes to its end, or reaches a point where C leaves the
    behaviour open (an access outside a buffer); the trace is what happened
    up to there. *)
Inductive outcome : Type :=
| Finished (trace : list event)
| Undefined (trace : list event).

Definition LF : string := String (Ascii.ascii_of_nat 10) EmptyString.

(** Lines 25-32: the text is formatted into [buf[1024]] and shown. A text
    that does not fit with its terminator is not modelled. *)
Definition Info (text : string) : option event :=
  if Z.of_nat (String.length text) <? 1024 then Some (MessageBoxW text)
  else None.

(** Lines 34-48. *)
Definition read_file_all (path : string) (rt : runtime)
  : list event * option (list byte * Z) :=
  if negb (fopen_rb rt) then ([], None)
  else
    let sz := ftell_end rt in
    if sz <=? 0 then ([Fopen path "rb"; Fclose], None)
    else if negb (malloc_ok rt) then ([Fopen path "rb"; Fclose], None)
    else if negb (Z.of_nat (length (fread_data rt)) =? to_size_t sz) then
      ([Fopen path "rb"; Malloc (to_size_t sz); Free; Fclose], None)
    else
      ([Fopen path "rb"; Malloc (to_size_t sz); Fclose],
       Some (fread_data rt, to_size_t sz)).

(** Lines 50-63. [wsprintfW] stores the name of the backup and its
    terminator in [bak[MAX_PATH]] without knowing the size of [bak]; the
    result of [CopyFileW] is not looked at. [None]: the name does not fit. *)
Definition write_file_all (path : string) (buf : list byte) (size : Z)
    (rt : runtime) : option (list event * bool) :=
  let bak := String.append path ".bak" in
  if MAX_PATH <? Z.of_nat (String.length bak) + 1 then None
  else if negb (fopen_rb_plus rt) then Some ([CopyFileW path bak], false)
  else
    Some ([CopyFileW path bak; Fopen path "rb+";
           Fwrite (take (Z.to_nat size) buf); Fclose], true).

(** [Info(hwnd, ...)] followed by what the path still does. *)
Definition say (trace : list event) (text : string) (rest : list event)
  : outcome :=
  match Info text with
  | Some box => Finished (trace ++ box :: rest)
  | None => Undefined trace
  end.

(** Lines 115-147. *)
Definition process_file (path : string) (rt : runtime) : outcome :=
  match read_file_all path rt with
  | (t, None) =>
      say t (String.append "Failed to read file:" (String.append LF path)) []
  | (t, Some (buf, size)) =>
      match fix_pe_clear_dynamic_base size buf with
      | OutOfBounds _ _ => Undefined t
      | Done res buf' =>
          if negb (returned res) then
            say t (String.append "Error: " (default EmptyString (reason res)))
                [Free]
          else if negb (modified res) then
            say t "No change needed (already fixed)" [Free]
          else
            match write_file_all path buf' size rt with
            | None => Undefined t
            | Some (w, false) =>
                say (t ++ w) "Write failed (permission or file in use)" [Free]
            | Some (w, true) =>
                say (t ++ w)
                    (String.append "Success! DYNAMIC_BASE cleared. Backup: "
                       (String.append path ".bak"))
                    [Free]
            end
      end
  end.

(** The texts of the message boxes of a trace. *)
Definition message_boxes (t : list event) : list string :=
  omap (fun e => match e with MessageBoxW text => Some text | _ => None end) t.

(** Streams and blocks in use along a trace: every [Fclose] and [Free]
    finds something to release, and nothing is left at the end. *)
Fixpoint released (streams blocks : nat) (t : list event) : bool :=
  match t with
  | [] => Nat.eqb streams 0 && Nat.eqb blocks 0
  | Fopen _ _ :: t' => released (S streams) blocks t'
  | Fclose :: t' =>
      match streams with
      | O => false
      | S n => released n blocks t'
      end
  | Malloc _ :: t' => released streams (S blocks) t'
  | Free :: t' =>
      match blocks with
      | O => false
      | S n => released streams n t'
      end
  | _ :: t' => released streams blocks t'
  end.

(** The events of a successful [read_file_all]. *)
Definition read_trace (path : string) (rt : runtime) : list event :=
  [Fopen path "rb"; Malloc (to_size_t (ftell_end rt)); Fclose].

(** A runtime in which the file holds [data] and can be rewritten. *)
Definition file_with (data : list byte) : runtime :=
  Runtime true (Z.of_nat (length data)) true data true.

(** [read_file_all] hands over a buffer. *)
Definition read_ok (rt : runtime) : Prop :=
  fopen_rb rt = true /\ 0 < ftell_end rt /\ malloc_ok rt = true
  /\ Z.of_nat (length (fread_data rt)) = to_size_t (ftell_end rt).

Definition text_read_failed (path : string) : string :=
  String.append "Failed to read file:" (String.append LF path).
Definition text_error (why : string) : string := String.append "Error: " why.
Definition text_no_change : string := "No change needed (already fixed)".
Definition text_write_failed : string :=
  "Write failed (permission or file in use)".
Definition text_success (path : string) : string :=
  String.append "Success! DYNAMIC_BASE cleared. Backup: "
    (String.append path ".bak").

(** The runs of [process_file] that come to their end, one constructor per
    [return]. *)
Inductive run (path : string) (rt : runtime) : list event -> Prop :=
| run_read_failed (t0 : list event) :
    read_file_all path rt = (t0, None) ->
    run path rt (t0 ++ [MessageBoxW (text_read_failed path)])
| run_error (r : result) (why : string) :
    read_ok rt ->
    patch (fread_data rt) = Done r (fread_data rt) ->
    returned r = false -> reason r = Some why ->
    run path rt (read_trace path rt ++ [MessageBoxW (text_error why); Free])
| run_no_change :
    read_ok rt ->
    patch (fread_data rt) = Done Unmodified (fread_data rt) ->
    run path rt (read_trace path rt ++ [MessageBoxW text_no_change; Free])
| run_write_failed (buf' : list byte) :
    read_ok rt ->
    patch (fread_data rt) = Done Modified buf' ->
    Z.of_nat (String.length path) + 5 <= MAX_PATH ->
    fopen_rb_plus rt = false ->
    run path rt
      (read_trace path rt
       ++ [CopyFileW path (String.append path ".bak");
           MessageBoxW text_write_failed; Free])
| run_success (buf' : list byte) :
    read_ok rt ->
    patch (fread_data rt) = Done Modified buf' ->
    Z.of_nat (String.length path) + 5 <= MAX_PATH ->
    fopen_rb_plus rt = true ->
    run path rt
      (read_trace path rt
       ++ [CopyFileW path (String.append path ".bak"); Fopen path "rb+";
           Fwrite buf'; Fclose; MessageBoxW (text_success path); Free]).

(** A path of 256 characters. *)
Definition long_path : string :=
  string_of_list_ascii (replicate 256 (Ascii.ascii_of_nat 97)).

(** * Proofs *)

(** ** Layout facts, by computation *)

Lemma sizeof_IMAGE_DOS_HEADER : sizeof IMAGE_DOS_HEADER = 64.
Proof. reflexivity. Qed.

Lemma sizeof_IMAGE_NT_HEADERS64 : sizeof IMAGE_NT_HEADERS64 = 264.
Proof. reflexivity. Qed.

Lemma sizeof_IMAGE_NT_HEADERS32 : sizeof IMAGE_NT_HEADERS32 = 248.
Proof. reflexivity. Qed.

Lemma dos_e_magic_eq : dos_e_magic = 0.
Proof. reflexivity. Qed.

Lemma dos_e_lfanew_eq : dos_e_lfanew = 60.
Proof. reflexivity. Qed.

Lemma nt_Signature_eq : nt_Signature = 0.
Proof. reflexivity. Qed.

Lemma nt_OptionalHeader_Magic_eq : nt_OptionalHeader_Magic = 24.
Proof. reflexivity. Qed.

Lemma nt_OptionalHeader_DllCharacteristics_eq :
  nt_OptionalHeader_DllCharacteristics = 94.
Proof. reflexivity. Qed.

Lemma nt32_OptionalHeader_DllCharacteristics_eq :
  nt32_OptionalHeader_DllCharacteristics = 94.
Proof. reflexivity. Qed.

(** ** Bytes *)

Lemma Z_of_byte_range (b : byte) : 0 <= Z_of_byte b < 256.
Proof.
  unfold Z_of_byte. pose proof (Byte.to_N_bounded b). lia.
Qed.

Lemma byte_of_Z_of_byte (b : byte) : byte_of_Z (Z_of_byte b) = b.
Proof.
  unfold byte_of_Z. pose proof (Z_of_byte_range b) as Hb.
  rewrite Z.mod_small by lia. unfold Z_of_byte.
  rewrite N2Z.id, Byte.of_to_N. reflexivity.
Qed.

Lemma Z_of_byte_of_Z (z : Z) : Z_of_byte (byte_of_Z z) = z mod 256.
Proof.
  unfold byte_of_Z, Z_of_byte.
  pose proof (Z.mod_pos_bound z 256 ltac:(lia)) as Hz.
  destruct (Byte.of_N (Z.to_N (z mod 256))) as [b|] eqn:E.
  - apply Byte.to_of_N in E. simpl. rewrite E. lia.
  - apply Byte.of_N_None_iff in E. lia.
Qed.

Lemma Z_of_byte_inj (a b : byte) : Z_of_byte a = Z_of_byte b -> a = b.
Proof.
  intros H. rewrite <- (byte_of_Z_of_byte a), <- (byte_of_Z_of_byte b).
  now rewrite H.
Qed.

Lemma byte_at_range (m : list byte) (off : Z) : 0 <= byte_at m off < 256.
Proof.
  unfold byte_at. destruct (m !! Z.to_nat off).
  - apply Z_of_byte_range.
  - lia.
Qed.

Lemma u16_at_range (m : list byte) (off : Z) : 0 <= u16_at m off < 2 ^ 16.
Proof.
  unfold u16_at.
  pose proof (byte_at_range m off). pose proof (byte_at_range m (off + 1)).
  lia.
Qed.

Lemma u32_at_range (m : list byte) (off : Z) : 0 <= u32_at m off < 2 ^ 32.
Proof.
  unfold u32_at.
  pose proof (byte_at_range m off). pose proof (byte_at_range m (off + 1)).
  pose proof (byte_at_range m (off + 2)).
  pose proof (byte_at_range m (off + 3)).
  lia.
Qed.

Lemma to_LONG_range (u : Z) :
  0 <= u < 2 ^ 32 -> - 2 ^ 31 <= to_LONG u < 2 ^ 31.
Proof.
  intros Hu. unfold to_LONG. destruct (Z.ltb_spec u (2 ^ 31)); lia.
Qed.

Lemma e_lfanew_of_range (buf : list byte) :
  - 2 ^ 31 <= e_lfanew_of buf < 2 ^ 31.
Proof. apply to_LONG_range, u32_at_range. Qed.

(** ** The memory monad *)

Lemma in_bounds_true (m : list byte) (off width : Z) :
  0 <= off -> off + width <= Z.of_nat (length m) ->
  in_bounds m off width = true.
Proof.
  intros H0 H1. unfold in_bounds.
  apply andb_true_intro; split; apply Z.leb_le; assumption.
Qed.

Lemma in_bounds_negative (m : list byte) (off width : Z) :
  off < 0 -> in_bounds m off width = false.
Proof.
  intros H. unfold in_bounds.
  destruct (Z.leb_spec 0 off); [lia | reflexivity].
Qed.

Lemma bind_load_WORD {B} (off : Z) (k : Z -> M B) (m : list byte) :
  in_bounds m off 2 = true ->
  bind (load_WORD off) k m = k (u16_at m off) m.
Proof.
  intros H. unfold bind, load_WORD. change WORD with 2. now rewrite H.
Qed.

Lemma bind_load_DWORD {B} (off : Z) (k : Z -> M B) (m : list byte) :
  in_bounds m off 4 = true ->
  bind (load_DWORD off) k m = k (u32_at m off) m.
Proof.
  intros H. unfold bind, load_DWORD. change DWORD with 4. now rewrite H.
Qed.

Lemma bind_load_DWORD_out {B} (off : Z) (k : Z -> M B) (m : list byte) :
  in_bounds m off 4 = false ->
  bind (load_DWORD off) k m = OutOfBounds off 4.
Proof.
  intros H. unfold bind, load_DWORD. change DWORD with 4. now rewrite H.
Qed.

Lemma bind_load_LONG {B} (off : Z) (k : Z -> M B) (m : list byte) :
  in_bounds m off 4 = true ->
  bind (load_LONG off) k m = k (to_LONG (u32_at m off)) m.
Proof.
  intros H. unfold bind, load_LONG. change LONG with 4. now rewrite H.
Qed.

Lemma bind_store_WORD {B} (off v : Z) (k : unit -> M B) (m : list byte) :
  in_bounds m off 2 = true ->
  bind (store_WORD off v) k m = k tt (put_u16 m off v).
Proof.
  intros H. unfold bind, store_WORD. change WORD with 2. now rewrite H.
Qed.

(** ** The bound check of line 79 *)

Lemma to_size_t_nonneg (e : Z) :
  0 <= e < 2 ^ 31 -> to_size_t (to_size_t e + 264) = e + 264.
Proof.
  intros He. unfold to_size_t, size_t_bits.
  rewrite (Z.mod_small e) by lia. apply Z.mod_small. lia.
Qed.


(** ** Every call follows one of the paths *)

Lemma patch_path (buf : list byte) : path buf (patch buf).
Proof.
  unfold patch, fix_pe_clear_dynamic_base.
  rewrite sizeof_IMAGE_DOS_HEADER, sizeof_IMAGE_NT_HEADERS64, dos_e_magic_eq,
    dos_e_lfanew_eq, nt_Signature_eq, nt_OptionalHeader_Magic_eq,
    nt_OptionalHeader_DllCharacteristics_eq,
    nt32_OptionalHeader_DllCharacteristics_eq.
  set (size := Z.of_nat (length buf)).
  destruct (Z.ltb_spec size 64) as [Hsmall | Hsize].
  { apply path_too_small. exact Hsmall. }
  rewrite bind_load_WORD by (apply in_bounds_true; fold size; lia).
  destruct (Z.eqb_spec (u16_at buf 0) IMAGE_DOS_SIGNATURE) as [Hmz | Hmz];
    cbv [negb].
  2: { apply path_not_pe; assumption. }
  rewrite bind_load_LONG by (apply in_bounds_true; fold size; lia).
  fold (e_lfanew_of buf). change (to_LONG (u32_at buf 60)) with (e_lfanew_of buf).
  pose proof (e_lfanew_of_range buf) as He.
  set (e := e_lfanew_of buf) in *.
  destruct (Z.gtb_spec (to_size_t (to_size_t e + 264)) size) as [Hbig | Hfit].
  { apply path_invalid_offset; fold size; fold e; try assumption. lia. }
  destruct (Z.lt_ge_cases e 0) as [Hneg | Hpos].
  { rewrite bind_load_DWORD_out
      by (apply in_bounds_negative; lia).
    replace (e + 0) with e by lia.
    apply path_out_of_bounds; fold size; fold e; assumption. }
  rewrite to_size_t_nonneg in Hfit by lia.
  rewrite bind_load_DWORD by (apply in_bounds_true; fold size; lia).
  replace (e + 0) with e by lia.
  destruct (Z.eqb_spec (u32_at buf e) IMAGE_NT_SIGNATURE) as [Hpe | Hpe];
    cbv [negb].
  2: { apply path_no_signature; fold size; fold e; assumption. }
  rewrite bind_load_WORD by (apply in_bounds_true; fold size; lia).
  change (u16_at buf (e + 24)) with (magic_of buf).
  destruct (Z.eqb_spec (magic_of buf) IMAGE_NT_OPTIONAL_HDR64_MAGIC)
    as [H64 | H64].
  { rewrite bind_load_WORD by (apply in_bounds_true; fold size; lia).
    destruct (Z.eqb_spec (Z.land (u16_at buf (e + 94))
                IMAGE_DLLCHARACTERISTICS_DYNAMIC_BASE) 0) as [Hbit | Hbit];
      cbv [negb].
    - apply path_unmodified; fold size; fold e; auto.
    - rewrite bind_store_WORD by (apply in_bounds_true; fold size; lia).
      apply path_modified; fold size; fold e; auto. }
  destruct (Z.eqb_spec (magic_of buf) IMAGE_NT_OPTIONAL_HDR32_MAGIC)
    as [H32 | H32].
  { rewrite bind_load_WORD by (apply in_bounds_true; fold size; lia).
    destruct (Z.eqb_spec (Z.land (u16_at buf (e + 94))
                IMAGE_DLLCHARACTERISTICS_DYNAMIC_BASE) 0) as [Hbit | Hbit];
      cbv [negb].
    - apply path_unmodified; fold size; fold e; auto.
    - rewrite bind_store_WORD by (apply in_bounds_true; fold size; lia).
      apply path_modified; fold size; fold e; auto. }
  apply path_unknown_magic; fold size; fold e; assumption.
Qed.

(** ** Clearing bit 0x0040 *)

Lemma land_64 (a : Z) : Z.land a 64 = if Z.testbit a 6 then 64 else 0.
Proof.
  apply Z.bits_inj'. intros n Hn.
  rewrite Z.land_spec. change 64 with (2 ^ 6).
  rewrite Z.pow2_bits_eqb by lia.
  destruct (Z.eqb_spec 6 n) as [<- | Hne].
  - destruct (Z.testbit a 6); cbn [andb].
    + now rewrite Z.pow2_bits_true by lia.
    + now rewrite Z.bits_0.
  - rewrite andb_false_r. destruct (Z.testbit a 6).
    + rewrite Z.pow2_bits_false by lia. reflexivity.
    + now rewrite Z.bits_0.
Qed.

Lemma ldiff_plus_land (a b : Z) : Z.ldiff a b + Z.land a b = a.
Proof.
  rewrite Z.add_nocarry_lxor, Z.lxor_lor, Z.lor_ldiff_and; try reflexivity;
    apply Z.bits_inj'; intros n Hn;
    rewrite !Z.land_spec, Z.ldiff_spec, Z.bits_0;
    destruct (Z.testbit a n), (Z.testbit b n); reflexivity.
Qed.

Lemma clear_dynamic_base_eq (old : Z) :
  0 <= old < 2 ^ 16 ->
  clear_dynamic_base old
  = Z.land old (Z.lnot IMAGE_DLLCHARACTERISTICS_DYNAMIC_BASE).
Proof.
  intros Hold. unfold clear_dynamic_base, to_WORD.
  rewrite <- Z.ldiff_land. apply Z.mod_small.
  pose proof (ldiff_plus_land old IMAGE_DLLCHARACTERISTICS_DYNAMIC_BASE).
  assert (0 <= Z.ldiff old IMAGE_DLLCHARACTERISTICS_DYNAMIC_BASE)
    by (apply Z.ldiff_nonneg; lia).
  assert (0 <= Z.land old IMAGE_DLLCHARACTERISTICS_DYNAMIC_BASE)
    by (apply Z.land_nonneg; lia).
  lia.
Qed.

Lemma clear_dynamic_base_range (old : Z) :
  0 <= clear_dynamic_base old < 2 ^ 16.
Proof. unfold clear_dynamic_base, to_WORD. apply Z.mod_pos_bound. lia. Qed.

Lemma clear_dynamic_base_bit (old : Z) :
  0 <= old < 2 ^ 16 ->
  Z.land (clear_dynamic_base old) IMAGE_DLLCHARACTERISTICS_DYNAMIC_BASE = 0.
Proof.
  intros Hold. rewrite clear_dynamic_base_eq by assumption.
  rewrite <- Z.ldiff_land. apply Z.land_ldiff.
Qed.

(** With the flag set, clearing it subtracts 64: the low byte changes and
    the high byte does not. *)
Lemma clear_dynamic_base_sub (old : Z) :
  0 <= old < 2 ^ 16 ->
  Z.land old IMAGE_DLLCHARACTERISTICS_DYNAMIC_BASE <> 0 ->
  clear_dynamic_base old = old - 64 /\ (old / 64) mod 2 = 1.
Proof.
  intros Hold Hbit.
  rewrite clear_dynamic_base_eq, <- Z.ldiff_land by assumption.
  pose proof (ldiff_plus_land old IMAGE_DLLCHARACTERISTICS_DYNAMIC_BASE) as E.
  unfold IMAGE_DLLCHARACTERISTICS_DYNAMIC_BASE in *.
  change 0x0040 with 64 in *.
  rewrite land_64 in E, Hbit.
  destruct (Z.testbit old 6) eqn:T; [| congruence].
  apply (Z.testbit_true old 6) in T; [| lia].
  change (2 ^ 6) with 64 in T. split; [lia | exact T].
Qed.

(** ** Stores *)

Lemma length_put_u16 (m : list byte) (off v : Z) :
  length (put_u16 m off v) = length m.
Proof. unfold put_u16. now rewrite !length_insert. Qed.

Lemma lookup_put_u16_ne (m : list byte) (off v : Z) (i : nat) :
  i <> Z.to_nat off -> i <> Z.to_nat (off + 1) ->
  put_u16 m off v !! i = m !! i.
Proof.
  intros H0 H1. unfold put_u16.
  rewrite list_lookup_insert_ne by congruence.
  now rewrite list_lookup_insert_ne by congruence.
Qed.

Lemma byte_at_put_u16_ne (m : list byte) (off v off' : Z) :
  0 <= off -> 0 <= off' -> off' <> off -> off' <> off + 1 ->
  byte_at (put_u16 m off v) off' = byte_at m off'.
Proof.
  intros H0 H1 H2 H3. unfold byte_at.
  rewrite lookup_put_u16_ne by lia. reflexivity.
Qed.

Lemma byte_at_put_u16_lo (m : list byte) (off v : Z) :
  0 <= off -> off + 2 <= Z.of_nat (length m) ->
  byte_at (put_u16 m off v) off = v mod 256.
Proof.
  intros H0 H1. unfold byte_at, put_u16.
  rewrite list_lookup_insert_ne by lia.
  rewrite list_lookup_insert_eq by lia.
  apply Z_of_byte_of_Z.
Qed.

Lemma byte_at_put_u16_hi (m : list byte) (off v : Z) :
  0 <= off -> off + 2 <= Z.of_nat (length m) ->
  byte_at (put_u16 m off v) (off + 1) = (v / 256) mod 256.
Proof.
  intros H0 H1. unfold byte_at, put_u16.
  rewrite list_lookup_insert_eq by (rewrite length_insert; lia).
  apply Z_of_byte_of_Z.
Qed.

Lemma u16_at_put_u16 (m : list byte) (off v : Z) :
  0 <= off -> off + 2 <= Z.of_nat (length m) ->
  u16_at (put_u16 m off v) off = v mod 2 ^ 16.
Proof.
  intros H0 H1. unfold u16_at.
  rewrite byte_at_put_u16_lo, byte_at_put_u16_hi by assumption.
  change (2 ^ 16) with (256 * 256). change (2 ^ 8) with 256.
  rewrite Z.rem_mul_r by lia. reflexivity.
Qed.

Lemma u16_at_put_u16_before (m : list byte) (off v off' : Z) :
  0 <= off' -> off' + 2 <= off ->
  u16_at (put_u16 m off v) off' = u16_at m off'.
Proof.
  intros H0 H1. unfold u16_at.
  now rewrite !byte_at_put_u16_ne by lia.
Qed.

Lemma u32_at_put_u16_before (m : list byte) (off v off' : Z) :
  0 <= off' -> off' + 4 <= off ->
  u32_at (put_u16 m off v) off' = u32_at m off'.
Proof.
  intros H0 H1. unfold u32_at.
  now rewrite !byte_at_put_u16_ne by lia.
Qed.

(** ** The bytes a store changes *)

Lemma changed_from_same (i : nat) (l : list byte) : changed_from i l l = [].
Proof.
  revert i. induction l as [| a l IH]; intros i; [reflexivity |].
  cbn [changed_from]. rewrite (Byte.byte_dec_lb (eq_refl a)). apply IH.
Qed.

Lemma changed_from_insert (i n : nat) (l : list byte) (x y : byte) :
  l !! n = Some y -> x <> y ->
  changed_from i l (<[n:=x]> l) = [(i + n)%nat].
Proof.
  revert i n. induction l as [| a l IH]; intros i n Hn Hxy.
  - discriminate Hn.
  - destruct n as [| n]; cbn [changed_from insert list_insert].
    + injection Hn as ->.
      destruct (Byte.eqb y x) eqn:E.
      * apply Byte.byte_dec_bl in E. congruence.
      * rewrite changed_from_same. f_equal. lia.
    + rewrite (Byte.byte_dec_lb (eq_refl a)).
      replace (i + S n)%nat with (S i + n)%nat by lia.
      apply IH; assumption.
Qed.

Lemma byte_at_lookup (m : list byte) (off : Z) (b : byte) :
  m !! Z.to_nat off = Some b -> byte_at m off = Z_of_byte b.
Proof. intros H. unfold byte_at. now rewrite H. Qed.

Lemma changed_put_u16 (buf : list byte) (off : Z) :
  0 <= off -> off + 2 <= Z.of_nat (length buf) ->
  Z.land (u16_at buf off) IMAGE_DLLCHARACTERISTICS_DYNAMIC_BASE <> 0 ->
  changed buf (put_u16 buf off (clear_dynamic_base (u16_at buf off)))
  = [Z.to_nat off].
Proof.
  intros H0 H1 Hbit.
  destruct (proj2 (lookup_lt_is_Some buf (Z.to_nat off)) ltac:(lia))
    as [b0 Hb0].
  destruct (proj2 (lookup_lt_is_Some buf (Z.to_nat (off + 1))) ltac:(lia))
    as [b1 Hb1].
  destruct (clear_dynamic_base_sub _ (u16_at_range buf off) Hbit)
    as [Hsub Hsix].
  rewrite Hsub. clear Hsub Hbit.
  unfold u16_at in *.
  rewrite (byte_at_lookup _ _ _ Hb0), (byte_at_lookup _ _ _ Hb1) in *.
  pose proof (Z_of_byte_range b0) as R0.
  pose proof (Z_of_byte_range b1) as R1.
  change (2 ^ 8) with 256 in *.
  set (old := Z_of_byte b0 + 256 * Z_of_byte b1) in *.
  assert (Hhi : byte_of_Z ((old - 64) / 256) = b1).
  { apply Z_of_byte_inj. rewrite Z_of_byte_of_Z.
    subst old. Z.div_mod_to_equations. lia. }
  assert (Hlo : byte_of_Z (old - 64) <> b0).
  { intros E. apply (f_equal Z_of_byte) in E. rewrite Z_of_byte_of_Z in E.
    subst old. Z.div_mod_to_equations. lia. }
  unfold put_u16. change (2 ^ 8) with 256. rewrite Hhi.
  rewrite list_insert_id
    by (rewrite list_lookup_insert_ne by lia; exact Hb1).
  unfold changed. now rewrite (changed_from_insert 0 _ _ _ b0).
Qed.

(** ** The first two bytes *)

Lemma u16_at_MZ (buf : list byte) :
  (2 <= length buf)%nat ->
  u16_at buf 0 = IMAGE_DOS_SIGNATURE <-> take 2 buf = MZ.
Proof.
  intros Hlen. destruct buf as [| a [| b t]]; cbn [length] in Hlen; try lia.
  unfold u16_at, byte_at.
  change (Z.to_nat 0) with 0%nat. change (Z.to_nat (0 + 1)) with 1%nat.
  cbn [lookup list_lookup take].
  pose proof (Z_of_byte_range a). pose proof (Z_of_byte_range b).
  unfold IMAGE_DOS_SIGNATURE, MZ. split.
  - intros E.
    assert (Ha : Z_of_byte a = Z_of_byte Byte.x4d)
      by (change (Z_of_byte Byte.x4d) with 77; lia).
    assert (Hb : Z_of_byte b = Z_of_byte Byte.x5a)
      by (change (Z_of_byte Byte.x5a) with 90; lia).
    apply Z_of_byte_inj in Ha, Hb. now subst.
  - intros E. injection E as -> ->. reflexivity.
Qed.

(** ** One outcome per buffer *)

Lemma patch_inv (buf : list byte) (o : exec result) :
  patch buf = o -> path buf o.
Proof. intros <-. apply patch_path. Qed.

Lemma path_functional (buf : list byte) (o1 o2 : exec result) :
  path buf o1 -> path buf o2 -> o1 = o2.
Proof.
  intros P1 P2.
  destruct P1; inversion P2; subst; try reflexivity;
    try lia; try congruence; try tauto;
    repeat match goal with
           | H : _ \/ _ |- _ => destruct H
           end; try congruence;
    rewrite ?to_size_t_nonneg in * by
      (pose proof (e_lfanew_of_range buf); lia); lia.
Qed.

Lemma path_patch (buf : list byte) (o : exec result) :
  path buf o -> patch buf = o.
Proof. intros P. apply (path_functional buf); [apply patch_path | exact P]. Qed.

(** ** Accepted buffers *)

Lemma DllCharacteristics_offset_eq (buf : list byte) :
  DllCharacteristics_offset buf = e_lfanew_of buf + 94.
Proof.
  unfold DllCharacteristics_offset.
  rewrite nt_OptionalHeader_DllCharacteristics_eq,
    nt32_OptionalHeader_DllCharacteristics_eq.
  now destruct (magic_of buf =? IMAGE_NT_OPTIONAL_HDR64_MAGIC).
Qed.

Lemma mutated_Done (buf buf' : list byte) (r : result) :
  patch buf = Done r buf' -> mutated buf = changed buf buf'.
Proof. intros H. unfold mutated. now rewrite H. Qed.

(** What a call that returns [true] did: it looked at the WORD at
    [e_lfanew + 94] and, with the flag set there, cleared it in place. *)
Lemma patch_accepted (buf buf' : list byte) (r : result) :
  patch buf = Done r buf' -> returned r = true ->
  let off := e_lfanew_of buf + 94 in
  (0 <= e_lfanew_of buf /\ off + 2 <= Z.of_nat (length buf))
  /\ (magic_of buf = IMAGE_NT_OPTIONAL_HDR64_MAGIC
      \/ magic_of buf = IMAGE_NT_OPTIONAL_HDR32_MAGIC)
  /\ r = Result true
           (negb (Z.land (u16_at buf off)
                         IMAGE_DLLCHARACTERISTICS_DYNAMIC_BASE =? 0))
           None
  /\ buf' = (if modified r
             then put_u16 buf off (clear_dynamic_base (u16_at buf off))
             else buf)
  /\ mutated buf = (if modified r then [Z.to_nat off] else []).
Proof.
  intros H Hret. rewrite (mutated_Done _ _ _ H).
  apply patch_inv in H. inversion H; subst; try discriminate Hret; cbv zeta.
  - match goal with E : Z.land _ _ = 0 |- _ => rewrite E end.
    cbn [Z.eqb negb modified Unmodified].
    unfold changed. rewrite changed_from_same.
    repeat split; auto; lia.
  - match goal with E : Z.land _ _ <> 0 |- _ =>
      pose proof E as Hbit; apply Z.eqb_neq in E; rewrite E end.
    cbn [negb modified Modified].
    rewrite changed_put_u16 by (assumption || lia).
    repeat split; auto; lia.
Qed.

(** After the store, every field the checks look at is as before. *)
Lemma put_u16_keeps_headers (buf : list byte) (v : Z) :
  0 <= e_lfanew_of buf ->
  let buf' := put_u16 buf (e_lfanew_of buf + 94) v in
  u16_at buf' 0 = u16_at buf 0
  /\ e_lfanew_of buf' = e_lfanew_of buf
  /\ u32_at buf' (e_lfanew_of buf) = u32_at buf (e_lfanew_of buf)
  /\ magic_of buf' = magic_of buf.
Proof.
  intros He buf'. subst buf'.
  assert (E : e_lfanew_of (put_u16 buf (e_lfanew_of buf + 94) v)
              = e_lfanew_of buf).
  { unfold e_lfanew_of at 1 3. rewrite dos_e_lfanew_eq.
    now rewrite u32_at_put_u16_before by lia. }
  repeat split.
  - now rewrite u16_at_put_u16_before by lia.
  - exact E.
  - now rewrite u32_at_put_u16_before by lia.
  - unfold magic_of. rewrite E, nt_OptionalHeader_Magic_eq.
    now rewrite u16_at_put_u16_before by lia.
Qed.

Lemma patch_after_Modified (buf buf' : list byte) :
  patch buf = Done Modified buf' -> patch buf' = Done Unmodified buf'.
Proof.
  intros H. apply patch_inv in H. inversion H; subst.
  match goal with H0 : 0 <= e_lfanew_of buf |- _ =>
    destruct (put_u16_keeps_headers buf
                (clear_dynamic_base (u16_at buf (e_lfanew_of buf + 94))) H0)
      as (Kmz & Ke & Ksig & Kmagic) end.
  apply path_patch. apply path_unmodified;
    rewrite ?length_put_u16, ?Ke, ?Kmz, ?Ksig, ?Kmagic; try assumption.
  rewrite u16_at_put_u16 by lia.
  pose proof (clear_dynamic_base_range (u16_at buf (e_lfanew_of buf + 94))).
  rewrite Z.mod_small by lia.
  apply clear_dynamic_base_bit, u16_at_range.
Qed.

(** The check of line 79 lets through exactly the negative offsets whose
    unsigned sum wraps: these are the calls that leave the buffer. *)
Lemma patch_OutOfBounds_iff (buf : list byte) (off width : Z) :
  patch buf = OutOfBounds off width <->
  (64 <= length buf)%nat /\ take 2 buf = MZ
  /\ off = e_lfanew_of buf /\ width = 4 /\ off < 0
  /\ to_size_t (to_size_t off + 264) <= Z.of_nat (length buf).
Proof.
  split.
  - intros H. apply patch_inv in H. inversion H; subst.
    repeat split; try lia. apply u16_at_MZ; [lia | assumption].
  - intros (Hlen & Hmz & -> & -> & Hneg & Hfit).
    apply path_patch. apply path_out_of_bounds; try lia.
    apply u16_at_MZ; [lia | assumption].
Qed.

(** With the high bit of [e_lfanew] clear the check is the one the
    reason string announces. *)
Lemma invalid_offset_iff_high_bit_clear (buf : list byte) :
  (64 <= length buf)%nat -> take 2 buf = MZ ->
  u32_at buf dos_e_lfanew < 2 ^ 31 ->
  patch buf = Done InvalidHeaderOffset buf <->
  u32_at buf dos_e_lfanew + sizeof IMAGE_NT_HEADERS64
  > Z.of_nat (length buf).
Proof.
  intros Hlen Hmz Hhigh. apply u16_at_MZ in Hmz; [| lia].
  rewrite sizeof_IMAGE_NT_HEADERS64.
  pose proof (u32_at_range buf dos_e_lfanew) as Hu.
  assert (He : e_lfanew_of buf = u32_at buf dos_e_lfanew).
  { unfold e_lfanew_of, to_LONG.
    destruct (Z.ltb_spec (u32_at buf dos_e_lfanew) (2 ^ 31)); lia. }
  split.
  - intros H. apply patch_inv in H. inversion H; subst.
    rewrite to_size_t_nonneg in * by lia. lia.
  - intros H. apply path_patch. apply path_invalid_offset; try lia.
    rewrite to_size_t_nonneg by lia. lia.
Qed.

(** * The claims *)

(** C1, as stated, fails: a PE32 and a PE32+ file with the same [e_lfanew]
    and the flag set are both mutated at absolute offset 158 = 64 + 94, and
    the two layouts place DllCharacteristics at the same offset from the NT
    header, not 4 bytes apart. *)
Lemma PE32_and_PE32plus_mutated_at_same_offset :
  magic_of pe32_flag_set = IMAGE_NT_OPTIONAL_HDR32_MAGIC
  /\ magic_of pe64_flag_set = IMAGE_NT_OPTIONAL_HDR64_MAGIC
  /\ e_lfanew_of pe32_flag_set = e_lfanew_of pe64_flag_set
  /\ patch pe32_flag_set = Done Modified pe32_flag_clear
  /\ patch pe64_flag_set = Done Modified pe64_flag_clear
  /\ mutated pe32_flag_set = [158%nat]
  /\ mutated pe64_flag_set = [158%nat]
  /\ DllCharacteristics_offset pe32_flag_set + 4
     <> DllCharacteristics_offset pe64_flag_set
  /\ ~ (mutated pe32_flag_set <> mutated pe64_flag_set).
Proof.
  repeat split; try (vm_compute; reflexivity).
  - vm_compute. discriminate.
  - intros H. apply H. vm_compute. reflexivity.
Qed.

(** C1 (amended). For a PE32 buffer and a PE32+ buffer with the same
    [e_lfanew], both accepted up to the optional-header magic, the patch
    operation reads and clears DllCharacteristics at the same absolute offset
    [e_lfanew + 94]: whether it reports a modification is decided by the
    WORD there, and with the flag set the byte at that offset is the one
    that changes, in both buffers. *)
Theorem DllCharacteristics_offset_same_for_both_layouts
    (b32 b64 b32' b64' : list byte) (r32 r64 : result) :
  magic_of b32 = IMAGE_NT_OPTIONAL_HDR32_MAGIC ->
  magic_of b64 = IMAGE_NT_OPTIONAL_HDR64_MAGIC ->
  e_lfanew_of b32 = e_lfanew_of b64 ->
  patch b32 = Done r32 b32' -> returned r32 = true ->
  patch b64 = Done r64 b64' -> returned r64 = true ->
  let off := e_lfanew_of b32 + 94 in
  DllCharacteristics_offset b32 = off
  /\ DllCharacteristics_offset b64 = off
  /\ modified r32
     = negb (Z.land (u16_at b32 off) IMAGE_DLLCHARACTERISTICS_DYNAMIC_BASE =? 0)
  /\ modified r64
     = negb (Z.land (u16_at b64 off) IMAGE_DLLCHARACTERISTICS_DYNAMIC_BASE =? 0)
  /\ (modified r32 = true -> modified r64 = true ->
      b32' = put_u16 b32 off (clear_dynamic_base (u16_at b32 off))
      /\ b64' = put_u16 b64 off (clear_dynamic_base (u16_at b64 off))
      /\ mutated b32 = [Z.to_nat off]
      /\ mutated b64 = [Z.to_nat off]).
Proof.
  intros _ _ He H32 R32 H64 R64 off.
  destruct (patch_accepted _ _ _ H32 R32) as (_ & _ & E32 & B32 & M32).
  destruct (patch_accepted _ _ _ H64 R64) as (_ & _ & E64 & B64 & M64).
  rewrite <- He in E64, B64, M64. fold off in E32, B32, M32, E64, B64, M64.
  repeat split.
  - apply DllCharacteristics_offset_eq.
  - rewrite DllCharacteristics_offset_eq, <- He. reflexivity.
  - rewrite E32 at 1. reflexivity.
  - rewrite E64 at 1. reflexivity.
  - rewrite B32, H. reflexivity.
  - rewrite B64, H0. reflexivity.
  - rewrite M32, H. reflexivity.
  - rewrite M64, H0. reflexivity.
Qed.

Lemma DllCharacteristics_offset_same_for_both_layouts_witness :
  DllCharacteristics_offset pe32_flag_set = 64 + 94
  /\ DllCharacteristics_offset pe64_flag_set = 64 + 94
  /\ mutated pe32_flag_set = [Z.to_nat (64 + 94)]
  /\ mutated pe64_flag_set = [Z.to_nat (64 + 94)].
Proof.
  destruct (DllCharacteristics_offset_same_for_both_layouts
              pe32_flag_set pe64_flag_set pe32_flag_clear pe64_flag_clear
              Modified Modified)
    as (O32 & O64 & _ & _ & K);
    try (vm_compute; reflexivity).
  destruct K as (_ & _ & M32 & M64); try reflexivity.
  repeat split; assumption.
Defined.

(** C2, at the failing input: a 264-byte buffer that starts with "MZ" and
    stores FF FF FF FF as [e_lfanew] passes the check of line 79, because
    [(size_t)(-1) + 264] wraps to 263, and the read of [nt->Signature]
    then starts one byte before the buffer. *)
Theorem high_e_lfanew_reads_before_buffer :
  (64 <= length stub_high_lfanew)%nat
  /\ take 2 stub_high_lfanew = MZ
  /\ e_lfanew_of stub_high_lfanew = -1
  /\ to_size_t (to_size_t (-1) + sizeof IMAGE_NT_HEADERS64) = 263
  /\ patch stub_high_lfanew = OutOfBounds (-1) 4.
Proof.
  repeat split; try (vm_compute; reflexivity).
  change (length stub_high_lfanew) with 264%nat. lia.
Qed.

(** C3. When the operation reports a modification, the WORD at the
    DllCharacteristics offset is the old one AND-ed with the complement of
    0x0040; read back after the call, at the offset a second parse finds,
    its bit 0x0040 is clear. *)
Theorem patch_clears_dynamic_base (buf buf' : list byte) (r : result) :
  patch buf = Done r buf' -> modified r = true ->
  let off := DllCharacteristics_offset buf in
  u16_at buf' off
  = Z.land (u16_at buf off) (Z.lnot IMAGE_DLLCHARACTERISTICS_DYNAMIC_BASE)
  /\ DllCharacteristics_offset buf' = off
  /\ Z.land (u16_at buf' (DllCharacteristics_offset buf'))
            IMAGE_DLLCHARACTERISTICS_DYNAMIC_BASE = 0.
Proof.
  intros H Hm off. subst off.
  rewrite !DllCharacteristics_offset_eq.
  apply patch_inv in H. inversion H; subst; try discriminate Hm.
  match goal with H0 : 0 <= e_lfanew_of buf |- _ =>
    destruct (put_u16_keeps_headers buf
                (clear_dynamic_base (u16_at buf (e_lfanew_of buf + 94))) H0)
      as (_ & Ke & _ & _) end.
  rewrite Ke.
  rewrite u16_at_put_u16 by lia.
  pose proof (u16_at_range buf (e_lfanew_of buf + 94)) as Hold.
  pose proof (clear_dynamic_base_range (u16_at buf (e_lfanew_of buf + 94))).
  rewrite Z.mod_small by lia.
  repeat split.
  - apply clear_dynamic_base_eq, Hold.
  - apply clear_dynamic_base_bit, Hold.
Qed.

Lemma patch_clears_dynamic_base_witness :
  u16_at pe32_flag_clear (DllCharacteristics_offset pe32_flag_set)
  = Z.land (u16_at pe32_flag_set (DllCharacteristics_offset pe32_flag_set))
           (Z.lnot IMAGE_DLLCHARACTERISTICS_DYNAMIC_BASE)
  /\ DllCharacteristics_offset pe32_flag_clear
     = DllCharacteristics_offset pe32_flag_set
  /\ Z.land (u16_at pe32_flag_clear
               (DllCharacteristics_offset pe32_flag_clear))
            IMAGE_DLLCHARACTERISTICS_DYNAMIC_BASE = 0.
Proof.
  apply (patch_clears_dynamic_base pe32_flag_set pe32_flag_clear Modified).
  - vm_compute. reflexivity.
  - reflexivity.
Defined.

(** C4. When the operation reports a modification, the buffer keeps its
    length and every byte other than the two at the DllCharacteristics
    offset, which lie inside the buffer, is as it was. *)
Theorem patch_changes_only_DllCharacteristics
    (buf buf' : list byte) (r : result) :
  patch buf = Done r buf' -> modified r = true ->
  let off := DllCharacteristics_offset buf in
  length buf' = length buf
  /\ 0 <= off /\ off + 2 <= Z.of_nat (length buf)
  /\ forall i : nat,
       i <> Z.to_nat off -> i <> Z.to_nat (off + 1) -> buf' !! i = buf !! i.
Proof.
  intros H Hm off. subst off. rewrite DllCharacteristics_offset_eq.
  apply patch_inv in H. inversion H; subst; try discriminate Hm.
  repeat split; try lia.
  - apply length_put_u16.
  - intros i H0 H1. now apply lookup_put_u16_ne.
Qed.

Lemma patch_changes_only_DllCharacteristics_witness :
  length pe64_flag_clear = length pe64_flag_set
  /\ 0 <= 158 /\ 158 + 2 <= Z.of_nat (length pe64_flag_set)
  /\ forall i : nat,
       i <> Z.to_nat 158 -> i <> Z.to_nat (158 + 1) ->
       pe64_flag_clear !! i = pe64_flag_set !! i.
Proof.
  apply (patch_changes_only_DllCharacteristics
           pe64_flag_set pe64_flag_clear Modified).
  - vm_compute. reflexivity.
  - reflexivity.
Defined.

Lemma patch_length (buf buf' : list byte) (r : result) :
  patch buf = Done r buf' -> length buf' = length buf.
Proof.
  intros H. apply patch_inv in H. inversion H; subst; try reflexivity.
  apply length_put_u16.
Qed.

Lemma patch_again (buf buf' : list byte) (r : result) :
  patch buf = Done r buf' ->
  patch buf' = Done (Result (returned r) false (reason r)) buf'.
Proof.
  intros H. pose proof (patch_inv _ _ H) as P.
  inversion P; subst; try exact H.
  exact (patch_after_Modified _ _ H).
Qed.

(** C5. Calling the operation twice ends with the buffer the first call
    left and with the first call's return value and reason, the second
    call reporting no modification; after a first call that succeeds the
    second returns Unmodified on an unchanged buffer. *)
Theorem patch_idempotent (buf : list byte) :
  patch_twice buf
  = match patch buf with
    | Done r buf' => Done (Result (returned r) false (reason r)) buf'
    | OutOfBounds off width => OutOfBounds off width
    end
  /\ forall (r : result) (buf' : list byte),
       patch buf = Done r buf' -> returned r = true ->
       patch buf' = Done Unmodified buf'.
Proof.
  split.
  - unfold patch_twice, bind.
    change (fix_pe_clear_dynamic_base (Z.of_nat (length buf)) buf)
      with (patch buf).
    destruct (patch buf) as [r buf' | off width] eqn:H; [| reflexivity].
    rewrite <- (patch_length _ _ _ H).
    exact (patch_again _ _ _ H).
  - intros r buf' H Hret.
    destruct (patch_accepted _ _ _ H Hret) as (_ & _ & E & _).
    rewrite (patch_again _ _ _ H), E. reflexivity.
Qed.

Lemma patch_idempotent_witness :
  patch_twice pe64_flag_set = Done Unmodified pe64_flag_clear
  /\ patch pe64_flag_clear = Done Unmodified pe64_flag_clear.
Proof.
  destruct (patch_idempotent pe64_flag_set) as [T S]. split.
  - rewrite T. vm_compute. reflexivity.
  - apply (S Modified pe64_flag_clear).
    + vm_compute. reflexivity.
    + reflexivity.
Defined.

(** C6, at the failing input: the buffer has 264 bytes and starts with
    "MZ"; its [e_lfanew], read as an unsigned 32-bit integer, is 0xFFFFFFFF,
    so that [e_lfanew + 264] exceeds the length; the call does not return
    "invalid e_lfanew" (it goes on to read before the buffer). *)
Theorem invalid_offset_check_misses_high_e_lfanew :
  (64 <= length stub_high_lfanew)%nat
  /\ take 2 stub_high_lfanew = MZ
  /\ u32_at stub_high_lfanew dos_e_lfanew = 0xFFFFFFFF
  /\ u32_at stub_high_lfanew dos_e_lfanew + sizeof IMAGE_NT_HEADERS64
     > Z.of_nat (length stub_high_lfanew)
  /\ patch stub_high_lfanew <> Done InvalidHeaderOffset stub_high_lfanew.
Proof.
  repeat split; try (vm_compute; reflexivity).
  - change (length stub_high_lfanew) with 264%nat. lia.
  - vm_compute. intros H. discriminate H.
Qed.

(** C7. A buffer shorter than 64 bytes is refused with "file too small"
    and is left as it was. *)
Theorem patch_too_small (buf : list byte) :
  (length buf < 64)%nat -> patch buf = Done TooSmall buf.
Proof.
  intros H. apply path_patch. apply path_too_small. lia.
Qed.

Lemma patch_too_small_witness : patch (zeros 10) = Done TooSmall (zeros 10).
Proof.
  apply (patch_too_small (zeros 10)).
  change (length (zeros 10)) with 10%nat. lia.
Defined.

(** C8, as stated, fails: ten zero bytes do not start with "MZ", and the
    answer is "file too small", not "not a PE file". *)
Lemma short_buffer_without_MZ_is_TooSmall :
  take 2 (zeros 10) <> MZ
  /\ patch (zeros 10) = Done TooSmall (zeros 10)
  /\ patch (zeros 10) <> Done NotAPEFile (zeros 10).
Proof.
  repeat split.
  - vm_compute. intros H. discriminate H.
  - vm_compute. intros H. discriminate H.
Qed.

(** C8 (amended). A buffer of at least 64 bytes whose first two bytes are
    not "MZ" is refused with "not a PE file (MZ missing)". *)
Theorem patch_not_MZ (buf : list byte) :
  (64 <= length buf)%nat -> take 2 buf <> MZ ->
  patch buf = Done NotAPEFile buf.
Proof.
  intros Hlen Hmz. apply path_patch. apply path_not_pe; [lia |].
  intros E. apply Hmz. apply u16_at_MZ; [lia | exact E].
Qed.

Lemma patch_not_MZ_witness : patch (zeros 64) = Done NotAPEFile (zeros 64).
Proof.
  apply (patch_not_MZ (zeros 64)).
  - change (length (zeros 64)) with 64%nat. lia.
  - vm_compute. intros H. discriminate H.
Defined.

(** C9. When the operation returns a failure, whichever of the five, the
    buffer is byte for byte what it was and the modified flag is false. *)
Theorem patch_failure_leaves_buffer (buf buf' : list byte) (r : result) :
  patch buf = Done r buf' -> returned r = false ->
  buf' = buf /\ modified r = false
  /\ (r = TooSmall \/ r = NotAPEFile \/ r = InvalidHeaderOffset
      \/ r = MissingPESignature \/ r = UnknownOptionalHeaderType).
Proof.
  intros H Hret. apply patch_inv in H.
  inversion H; subst; try discriminate Hret; repeat split; tauto.
Qed.

Lemma patch_failure_leaves_buffer_witness :
  pe_unknown_magic = pe_unknown_magic
  /\ modified UnknownOptionalHeaderType = false
  /\ (UnknownOptionalHeaderType = TooSmall
      \/ UnknownOptionalHeaderType = NotAPEFile
      \/ UnknownOptionalHeaderType = InvalidHeaderOffset
      \/ UnknownOptionalHeaderType = MissingPESignature
      \/ UnknownOptionalHeaderType = UnknownOptionalHeaderType).
Proof.
  apply (patch_failure_leaves_buffer
           pe_unknown_magic pe_unknown_magic UnknownOptionalHeaderType).
  - vm_compute. reflexivity.
  - reflexivity.
Defined.

(** C10. On the 328-byte PE32+ header (magic 0x20B) with DllCharacteristics
    0x0140 the operation returns Modified and leaves 0x0100 in the field;
    on the same buffer with 0x0100 it returns Unmodified and the buffer is
    unchanged. *)
Theorem minimal_PE32plus_scenario :
  magic_of pe64_flag_set = 0x20B
  /\ u16_at pe64_flag_set (DllCharacteristics_offset pe64_flag_set) = 0x0140
  /\ (exists buf',
        patch pe64_flag_set = Done Modified buf'
        /\ u16_at buf' (DllCharacteristics_offset buf') = 0x0100
        /\ buf' = pe64_flag_clear)
  /\ u16_at pe64_flag_clear (DllCharacteristics_offset pe64_flag_clear)
     = 0x0100
  /\ patch pe64_flag_clear = Done Unmodified pe64_flag_clear.
Proof.
  split; [vm_compute; reflexivity |].
  split; [vm_compute; reflexivity |].
  split.
  - exists pe64_flag_clear.
    split; [vm_compute; reflexivity |].
    split; [vm_compute; reflexivity | reflexivity].
  - split; vm_compute; reflexivity.
Qed.

(** * Further properties of fix_pe_clear_dynamic_base *)

Lemma to_size_t_far_negative (e : Z) :
  - 2 ^ 31 <= e < - 264 ->
  to_size_t (to_size_t e + 264) = e + 2 ^ 64 + 264.
Proof.
  intros He. unfold to_size_t, size_t_bits.
  replace (e mod 2 ^ 64) with (e + 2 ^ 64).
  - apply Z.mod_small. lia.
  - apply Z.mod_unique with (q := -1); lia.
Qed.

Lemma byte_at_app (buf tail : list byte) (off : Z) :
  0 <= off < Z.of_nat (length buf) ->
  byte_at (buf ++ tail) off = byte_at buf off.
Proof.
  intros H. unfold byte_at. now rewrite lookup_app_l by lia.
Qed.

Lemma u16_at_app (buf tail : list byte) (off : Z) :
  0 <= off -> off + 2 <= Z.of_nat (length buf) ->
  u16_at (buf ++ tail) off = u16_at buf off.
Proof.
  intros H0 H1. unfold u16_at. now rewrite !byte_at_app by lia.
Qed.

Lemma u32_at_app (buf tail : list byte) (off : Z) :
  0 <= off -> off + 4 <= Z.of_nat (length buf) ->
  u32_at (buf ++ tail) off = u32_at buf off.
Proof.
  intros H0 H1. unfold u32_at. now rewrite !byte_at_app by lia.
Qed.

Lemma put_u16_app (buf tail : list byte) (off v : Z) :
  0 <= off -> off + 2 <= Z.of_nat (length buf) ->
  put_u16 (buf ++ tail) off v = put_u16 buf off v ++ tail.
Proof.
  intros H0 H1. unfold put_u16.
  rewrite (insert_app_l buf) by lia.
  now rewrite insert_app_l by (rewrite length_insert; lia).
Qed.

Lemma e_lfanew_of_app (buf tail : list byte) :
  64 <= Z.of_nat (length buf) ->
  e_lfanew_of (buf ++ tail) = e_lfanew_of buf.
Proof.
  intros H. unfold e_lfanew_of. rewrite dos_e_lfanew_eq.
  now rewrite u32_at_app by lia.
Qed.

Lemma magic_of_app (buf tail : list byte) :
  0 <= e_lfanew_of buf -> e_lfanew_of buf + 264 <= Z.of_nat (length buf) ->
  magic_of (buf ++ tail) = magic_of buf.
Proof.
  intros H0 H1. unfold magic_of.
  rewrite e_lfanew_of_app, nt_OptionalHeader_Magic_eq by lia.
  now rewrite u16_at_app by lia.
Qed.

(** With the flag set, the store puts back the high byte it found and
    lowers the low byte by 64. *)
Lemma put_u16_clear_low_byte (buf : list byte) (off : Z) :
  0 <= off -> off + 2 <= Z.of_nat (length buf) ->
  Z.land (u16_at buf off) IMAGE_DLLCHARACTERISTICS_DYNAMIC_BASE <> 0 ->
  exists lo : byte,
    buf !! Z.to_nat off = Some lo
    /\ Z.land (Z_of_byte lo) IMAGE_DLLCHARACTERISTICS_DYNAMIC_BASE
       = IMAGE_DLLCHARACTERISTICS_DYNAMIC_BASE
    /\ put_u16 buf off (clear_dynamic_base (u16_at buf off))
       = <[Z.to_nat off := byte_of_Z (Z_of_byte lo - 64)]> buf.
Proof.
  intros H0 H1 Hbit.
  destruct (proj2 (lookup_lt_is_Some buf (Z.to_nat off)) ltac:(lia))
    as [b0 Hb0].
  destruct (proj2 (lookup_lt_is_Some buf (Z.to_nat (off + 1))) ltac:(lia))
    as [b1 Hb1].
  destruct (clear_dynamic_base_sub _ (u16_at_range buf off) Hbit)
    as [Hsub Hsix].
  rewrite Hsub. clear Hsub Hbit.
  unfold u16_at in *.
  rewrite (byte_at_lookup _ _ _ Hb0), (byte_at_lookup _ _ _ Hb1) in *.
  pose proof (Z_of_byte_range b0) as R0.
  pose proof (Z_of_byte_range b1) as R1.
  change (2 ^ 8) with 256 in *.
  set (old := Z_of_byte b0 + 256 * Z_of_byte b1) in *.
  assert (Hsix0 : (Z_of_byte b0 / 64) mod 2 = 1)
    by (subst old; Z.div_mod_to_equations; lia).
  assert (Hhi : byte_of_Z ((old - 64) / 256) = b1).
  { apply Z_of_byte_inj. rewrite Z_of_byte_of_Z.
    subst old. Z.div_mod_to_equations. lia. }
  assert (Hlo : byte_of_Z (old - 64) = byte_of_Z (Z_of_byte b0 - 64)).
  { unfold byte_of_Z. do 3 f_equal.
    subst old. Z.div_mod_to_equations. lia. }
  exists b0. split; [exact Hb0 |]. split.
  - unfold IMAGE_DLLCHARACTERISTICS_DYNAMIC_BASE. change 0x0040 with 64.
    rewrite land_64.
    apply (Z.testbit_true (Z_of_byte b0) 6) in Hsix0; [| lia].
    now rewrite Hsix0.
  - unfold put_u16. change (2 ^ 8) with 256. rewrite Hhi, Hlo.
    apply list_insert_id. rewrite list_lookup_insert_ne by lia. exact Hb1.
Qed.

(** X1. The call returns a result, whatever the bytes, unless the stored
    [e_lfanew] is one of 0xFFFFFEF8 .. 0xFFFFFFFF: on a buffer that is too
    short, or does not start with "MZ", or stores a smaller [e_lfanew], no
    access leaves the buffer. *)
Theorem patch_returns_unless_e_lfanew_wraps (buf : list byte) :
  Z.of_nat (length buf) < 2 ^ 63 ->
  (length buf < 64)%nat \/ take 2 buf <> MZ
  \/ u32_at buf dos_e_lfanew < 0xFFFFFEF8 ->
  exists (r : result) (buf' : list byte), patch buf = Done r buf'.
Proof.
  intros Hsize Hsafe.
  destruct (patch buf) as [r buf' | off width] eqn:H; [eauto |].
  exfalso. apply patch_inv in H. inversion H; subst.
  destruct Hsafe as [Hshort | [Hmz | Hlow]].
  - lia.
  - apply Hmz. apply u16_at_MZ; [lia | assumption].
  - pose proof (u32_at_range buf dos_e_lfanew) as Hu.
    pose proof (e_lfanew_of_range buf) as Hr.
    match goal with
    | Hneg : e_lfanew_of buf < 0, Hfit : to_size_t _ <= _ |- _ =>
        assert (He : e_lfanew_of buf = u32_at buf dos_e_lfanew - 2 ^ 32)
          by (revert Hneg; unfold e_lfanew_of, to_LONG;
              destruct (Z.ltb_spec (u32_at buf dos_e_lfanew) (2 ^ 31)); lia);
        rewrite to_size_t_far_negative in Hfit by lia; lia
    end.
Qed.

Lemma patch_returns_unless_e_lfanew_wraps_witness :
  exists (r : result) (buf' : list byte),
    patch (dos_stub 0xFFFFFEF7 200) = Done r buf'.
Proof.
  apply (patch_returns_unless_e_lfanew_wraps (dos_stub 0xFFFFFEF7 200)).
  - change (length (dos_stub 0xFFFFFEF7 200)) with 264%nat. lia.
  - right. right. vm_compute. reflexivity.
Defined.




(** X5. When the operation reports a modification, the result is the
    input with one byte replaced: the low byte of DllCharacteristics, at
    [e_lfanew + 94], which had bit 0x40 set and is lowered by 64. The high
    byte of the field is written back as it was. *)
Theorem patch_Modified_replaces_one_byte
    (buf buf' : list byte) (r : result) :
  patch buf = Done r buf' -> modified r = true ->
  exists lo : byte,
    buf !! Z.to_nat (e_lfanew_of buf + 94) = Some lo
    /\ Z.land (Z_of_byte lo) IMAGE_DLLCHARACTERISTICS_DYNAMIC_BASE
       = IMAGE_DLLCHARACTERISTICS_DYNAMIC_BASE
    /\ buf' = <[Z.to_nat (e_lfanew_of buf + 94)
                := byte_of_Z (Z_of_byte lo - 64)]> buf.
Proof.
  intros H Hm. apply patch_inv in H.
  inversion H; subst; try discriminate Hm.
  apply put_u16_clear_low_byte; (assumption || lia).
Qed.

Lemma patch_Modified_replaces_one_byte_witness :
  exists lo : byte,
    pe32_flag_set !! Z.to_nat (e_lfanew_of pe32_flag_set + 94) = Some lo
    /\ Z.land (Z_of_byte lo) IMAGE_DLLCHARACTERISTICS_DYNAMIC_BASE
       = IMAGE_DLLCHARACTERISTICS_DYNAMIC_BASE
    /\ pe32_flag_clear
       = <[Z.to_nat (e_lfanew_of pe32_flag_set + 94)
           := byte_of_Z (Z_of_byte lo - 64)]> pe32_flag_set.
Proof.
  apply (patch_Modified_replaces_one_byte
           pe32_flag_set pe32_flag_clear Modified).
  - vm_compute. reflexivity.
  - reflexivity.
Defined.

(** X6. Bytes after the end of the buffer do not matter once the size
    checks pass: if a call returns anything other than "file too small" or
    "invalid e_lfanew", the same buffer followed by any further bytes gets
    the same answer, and those bytes come out untouched. *)
Theorem patch_ignores_trailing_bytes
    (buf buf' tail : list byte) (r : result) :
  patch buf = Done r buf' ->
  r <> TooSmall -> r <> InvalidHeaderOffset ->
  patch (buf ++ tail) = Done r (buf' ++ tail).
Proof.
  intros H Hsmall Hinvalid. apply patch_inv in H. apply path_patch.
  assert (Hlen : Z.of_nat (length (buf ++ tail))
                 = Z.of_nat (length buf) + Z.of_nat (length tail))
    by (rewrite length_app; lia).
  inversion H; subst; try congruence.
  - apply path_not_pe; [lia |]. now rewrite u16_at_app by lia.
  - apply path_no_signature;
      rewrite ?e_lfanew_of_app, ?u16_at_app, ?u32_at_app by lia;
      (assumption || lia).
  - apply path_unknown_magic;
      rewrite ?magic_of_app, ?e_lfanew_of_app, ?u16_at_app, ?u32_at_app
        by lia;
      (assumption || lia).
  - apply path_unmodified;
      rewrite ?magic_of_app, ?e_lfanew_of_app, ?u16_at_app, ?u32_at_app
        by lia;
      (assumption || lia).
  - rewrite <- put_u16_app by lia.
    rewrite <- (u16_at_app buf tail (e_lfanew_of buf + 94)) by lia.
    rewrite <- (e_lfanew_of_app buf tail) at 1 2 by lia.
    apply path_modified;
      rewrite ?magic_of_app, ?e_lfanew_of_app, ?u16_at_app, ?u32_at_app
        by lia;
      (assumption || lia).
Qed.

Lemma patch_ignores_trailing_bytes_witness :
  patch (pe64_flag_set ++ zeros 512) = Done Modified (pe64_flag_clear ++ zeros 512).
Proof.
  apply (patch_ignores_trailing_bytes pe64_flag_set pe64_flag_clear).
  - vm_compute. reflexivity.
  - intros H. discriminate H.
  - intros H. discriminate H.
Defined.

(** * process_file *)

Lemma Info_Some (text : string) (box : event) :
  Info text = Some box -> box = MessageBoxW text.
Proof.
  unfold Info. destruct (Z.of_nat (String.length text) <? 1024); congruence.
Qed.

Lemma say_Finished (t : list event) (text : string) (rest u : list event) :
  say t text rest = Finished u -> u = t ++ MessageBoxW text :: rest.
Proof.
  unfold say. destruct (Info text) as [box |] eqn:E; [| discriminate].
  apply Info_Some in E. subst box. congruence.
Qed.

Lemma length_append (a b : string) :
  String.length (String.append a b) = (String.length a + String.length b)%nat.
Proof. induction a as [| c a IH]; cbn; [reflexivity | now rewrite IH]. Qed.

Lemma read_file_all_Some
    (path : string) (rt : runtime) (t : list event) (buf : list byte)
    (size : Z) :
  read_file_all path rt = (t, Some (buf, size)) ->
  read_ok rt /\ t = read_trace path rt /\ buf = fread_data rt
  /\ size = Z.of_nat (length buf).
Proof.
  unfold read_file_all, read_ok, read_trace.
  destruct (fopen_rb rt); cbn [negb]; [| discriminate].
  destruct (Z.leb_spec (ftell_end rt) 0); [discriminate |].
  destruct (malloc_ok rt); cbn [negb]; [| discriminate].
  destruct (Z.eqb_spec (Z.of_nat (length (fread_data rt)))
              (to_size_t (ftell_end rt))) as [E | E];
    cbn [negb]; [| discriminate].
  intros [= <- <- <-]. repeat split; auto.
Qed.

Lemma read_file_all_None (path : string) (rt : runtime) (t : list event) :
  read_file_all path rt = (t, None) ->
  t = [] \/ t = [Fopen path "rb"; Fclose]
  \/ t = [Fopen path "rb"; Malloc (to_size_t (ftell_end rt)); Free; Fclose].
Proof.
  unfold read_file_all.
  destruct (fopen_rb rt); cbn [negb]; [| intros [= <-]; auto].
  destruct (ftell_end rt <=? 0); [intros [= <-]; auto |].
  destruct (malloc_ok rt); cbn [negb]; [| intros [= <-]; auto].
  destruct (Z.of_nat (length (fread_data rt)) =? to_size_t (ftell_end rt));
    cbn [negb]; [discriminate | intros [= <-]; auto].
Qed.

(** Every run that comes to its end is one of the five. *)
Lemma process_file_run (path : string) (rt : runtime) (t : list event) :
  process_file path rt = Finished t -> run path rt t.
Proof.
  unfold process_file.
  destruct (read_file_all path rt) as [t0 [[buf size] |]] eqn:R.
  2: { intros H. apply say_Finished in H. subst t.
       now apply run_read_failed. }
  apply read_file_all_Some in R. destruct R as (Hok & -> & -> & ->).
  change (fix_pe_clear_dynamic_base (Z.of_nat (length (fread_data rt)))
            (fread_data rt)) with (patch (fread_data rt)).
  destruct (patch (fread_data rt)) as [r buf' | off width] eqn:P;
    [| discriminate].
  destruct (returned r) eqn:Hret; cbn [negb].
  - destruct (patch_accepted _ _ _ P Hret) as (_ & _ & Er & Eb & _).
    destruct (modified r) eqn:Hmod; cbn [negb].
    + assert (r = Modified) as -> by (rewrite Er in *; cbn in Hmod;
                                       rewrite Hmod; reflexivity).
      unfold write_file_all.
      rewrite length_append. change (String.length ".bak") with 4%nat.
      destruct (Z.ltb_spec MAX_PATH
                  (Z.of_nat (String.length path + 4) + 1));
        [discriminate |].
      rewrite firstn_all2
        by (rewrite (patch_length _ _ _ P); lia).
      destruct (fopen_rb_plus rt) eqn:W; cbn [negb];
        intros Hsay; apply say_Finished in Hsay; subst t;
        rewrite <- app_assoc.
      * apply (run_success _ _ buf'); auto. lia.
      * apply (run_write_failed _ _ buf'); auto. lia.
    + assert (r = Unmodified) as -> by (rewrite Er in *; cbn in Hmod;
                                         rewrite Hmod; reflexivity).
      subst buf'. intros H. apply say_Finished in H. subst t.
      now apply run_no_change.
  - intros H. apply say_Finished in H. subst t.
    pose proof (patch_inv _ _ P) as Q.
    inversion Q; subst; try discriminate Hret;
      match goal with
      | E : patch _ = Done (Result false false (Some ?w)) _ |- _ =>
          apply (run_error _ _ _ w Hok E); reflexivity
      | E : patch _ = Done ?f _ |- _ =>
          apply (run_error _ _ _ _ Hok E); reflexivity
      end.
Qed.

Lemma read_file_all_ok (path : string) (rt : runtime) :
  read_ok rt ->
  read_file_all path rt
  = (read_trace path rt,
     Some (fread_data rt, Z.of_nat (length (fread_data rt)))).
Proof.
  intros (Hopen & Hsz & Hmalloc & Hread). unfold read_file_all, read_trace.
  rewrite Hopen, Hmalloc. cbn [negb].
  destruct (Z.leb_spec (ftell_end rt) 0); [lia |].
  rewrite Hread, Z.eqb_refl. reflexivity.
Qed.

Lemma Info_fits (text : string) :
  Z.of_nat (String.length text) < 1024 -> Info text = Some (MessageBoxW text).
Proof.
  intros H. unfold Info.
  destruct (Z.ltb_spec (Z.of_nat (String.length text)) 1024); [reflexivity | lia].
Qed.

(** The only run with an [fwrite] is the successful one. *)
Lemma run_Fwrite
    (path : string) (rt : runtime) (t : list event) (data : list byte) :
  run path rt t -> In (Fwrite data) t ->
  patch (fread_data rt) = Done Modified data
  /\ t = read_trace path rt
         ++ [CopyFileW path (String.append path ".bak"); Fopen path "rb+";
             Fwrite data; Fclose; MessageBoxW (text_success path); Free].
Proof.
  intros H Hin.
  inversion H as [t0 R | r why _ P _ _ | _ P | buf' _ P _ _ | buf' _ P _ _];
    subst t.
  - apply read_file_all_None in R.
    apply in_app_iff in Hin.
    destruct R as [-> | [-> | ->]]; cbn in Hin;
      intuition discriminate.
  - cbn in Hin. intuition discriminate.
  - cbn in Hin. intuition discriminate.
  - cbn in Hin. intuition discriminate.
  - assert (buf' = data) as ->
      by (cbn in Hin; intuition (try discriminate); congruence).
    split; [assumption | reflexivity].
Qed.

(** What a message box says about the run that shows it. *)
Lemma run_message
    (path : string) (rt : runtime) (t : list event) (text : string) :
  run path rt t -> In (MessageBoxW text) t ->
  (text = text_read_failed path
   /\ exists t0, read_file_all path rt = (t0, None)
                 /\ t = t0 ++ [MessageBoxW text])
  \/ (exists why,
        text = text_error why
        /\ patch (fread_data rt)
           = Done (Result false false (Some why)) (fread_data rt)
        /\ t = read_trace path rt ++ [MessageBoxW text; Free])
  \/ (text = text_no_change
      /\ patch (fread_data rt) = Done Unmodified (fread_data rt)
      /\ t = read_trace path rt ++ [MessageBoxW text; Free])
  \/ (text = text_write_failed
      /\ (exists buf', patch (fread_data rt) = Done Modified buf')
      /\ fopen_rb_plus rt = false
      /\ t = read_trace path rt
             ++ [CopyFileW path (String.append path ".bak");
                 MessageBoxW text; Free])
  \/ (text = text_success path
      /\ exists buf',
           patch (fread_data rt) = Done Modified buf'
           /\ t = read_trace path rt
                  ++ [CopyFileW path (String.append path ".bak");
                      Fopen path "rb+"; Fwrite buf'; Fclose;
                      MessageBoxW text; Free]).
Proof.
  intros H Hin.
  inversion H as [t0 R | r why _ P Hret Hwhy | _ P | buf' _ P _ W
                  | buf' _ P _ W];
    subst t.
  - left. pose proof (read_file_all_None _ _ _ R) as T.
    apply in_app_iff in Hin.
    assert (text = text_read_failed path) as ->
      by (destruct T as [-> | [-> | ->]]; cbn [In app] in Hin;
          intuition (try discriminate); congruence).
    split; [reflexivity | eauto].
  - right; left. exists why.
    assert (text = text_error why) as ->
      by (unfold read_trace in Hin; cbn [In app] in Hin;
          intuition (try discriminate); congruence).
    repeat split.
    apply patch_inv in P.
    inversion P; subst; try discriminate Hret;
      cbn in Hwhy; injection Hwhy as <-; apply path_patch; assumption.
  - right; right; left.
    assert (text = text_no_change) as ->
      by (unfold read_trace in Hin; cbn [In app] in Hin;
          intuition (try discriminate); congruence).
    repeat split. assumption.
  - right; right; right; left.
    assert (text = text_write_failed) as ->
      by (unfold read_trace in Hin; cbn [In app] in Hin;
          intuition (try discriminate); congruence).
    repeat split; eauto.
  - right; right; right; right.
    assert (text = text_success path) as ->
      by (unfold read_trace in Hin; cbn [In app] in Hin;
          intuition (try discriminate); congruence).
    split; [reflexivity | eauto].
Qed.

(** X7. The file is written only after the patch operation has reported a
    modification of exactly the bytes that were read: what is written is
    the patched buffer, as long as the file that was read and different
    from it in the one byte at [e_lfanew + 94], and the copy to
    [path.bak] has been asked for before the file is opened for writing. *)
Theorem process_file_writes_only_patched_bytes
    (path : string) (rt : runtime) (t : list event) (data : list byte) :
  process_file path rt = Finished t -> In (Fwrite data) t ->
  patch (fread_data rt) = Done Modified data
  /\ length data = length (fread_data rt)
  /\ mutated (fread_data rt)
     = [Z.to_nat (e_lfanew_of (fread_data rt) + 94)]
  /\ t = read_trace path rt
         ++ [CopyFileW path (String.append path ".bak"); Fopen path "rb+";
             Fwrite data; Fclose; MessageBoxW (text_success path); Free].
Proof.
  intros H Hin. apply process_file_run in H.
  destruct (run_Fwrite _ _ _ _ H Hin) as (P & ->).
  destruct (patch_accepted _ _ _ P eq_refl) as (_ & _ & _ & _ & M).
  repeat split; try assumption.
  apply (patch_length _ _ _ P).
Qed.

Lemma process_file_writes_only_patched_bytes_witness :
  patch (fread_data (file_with pe64_flag_set)) = Done Modified pe64_flag_clear
  /\ length pe64_flag_clear = length (fread_data (file_with pe64_flag_set))
  /\ mutated (fread_data (file_with pe64_flag_set))
     = [Z.to_nat (e_lfanew_of (fread_data (file_with pe64_flag_set)) + 94)]
  /\ read_trace "a.exe" (file_with pe64_flag_set)
     ++ [CopyFileW "a.exe" (String.append "a.exe" ".bak");
         Fopen "a.exe" "rb+"; Fwrite pe64_flag_clear; Fclose;
         MessageBoxW (text_success "a.exe"); Free]
     = read_trace "a.exe" (file_with pe64_flag_set)
       ++ [CopyFileW "a.exe" (String.append "a.exe" ".bak");
           Fopen "a.exe" "rb+"; Fwrite pe64_flag_clear; Fclose;
           MessageBoxW (text_success "a.exe"); Free].
Proof.
  apply (process_file_writes_only_patched_bytes
           "a.exe" (file_with pe64_flag_set)).
  - vm_compute. reflexivity.
  - vm_compute. tauto.
Defined.

(** X8. In every run that comes to its end, each stream that was opened
    has been closed and each block that was allocated has been freed, and
    no [fclose] or [free] comes without its [_wfopen] or [malloc]. *)
Theorem process_file_releases_streams_and_blocks
    (path : string) (rt : runtime) (t : list event) :
  process_file path rt = Finished t -> released 0 0 t = true.
Proof.
  intros H. apply process_file_run in H.
  inversion H as [t0 R | | | |]; subst t; try reflexivity.
  apply read_file_all_None in R.
  destruct R as [-> | [-> | ->]]; reflexivity.
Qed.

Lemma process_file_releases_streams_and_blocks_witness :
  released 0 0
    (read_trace "a.exe" (file_with pe64_flag_set)
     ++ [CopyFileW "a.exe" (String.append "a.exe" ".bak");
         Fopen "a.exe" "rb+"; Fwrite pe64_flag_clear; Fclose;
         MessageBoxW (text_success "a.exe"); Free])
  = true.
Proof.
  apply (process_file_releases_streams_and_blocks
           "a.exe" (file_with pe64_flag_set)).
  vm_compute. reflexivity.
Defined.

(** X9. A run that comes to its end shows exactly one message box, with
    one of nine texts: the read failure with the path, "Error: " followed
    by one of the five reasons, no change needed, write failed, or success
    with the name of the backup. *)
Theorem process_file_shows_one_message
    (path : string) (rt : runtime) (t : list event) :
  process_file path rt = Finished t ->
  exists text : string,
    message_boxes t = [text]
    /\ In text
         [text_read_failed path;
          text_error file_too_small; text_error not_a_PE_file;
          text_error invalid_e_lfanew; text_error PE_signature_missing;
          text_error unknown_optional_header_type;
          text_no_change; text_write_failed; text_success path].
Proof.
  intros H. apply process_file_run in H.
  inversion H as [t0 R | r why _ P Hret Hwhy | | |]; subst t.
  - exists (text_read_failed path). split; [| cbn; auto].
    apply read_file_all_None in R.
    destruct R as [-> | [-> | ->]]; reflexivity.
  - exists (text_error why). split; [reflexivity |].
    apply patch_inv in P.
    inversion P; subst; try discriminate Hret;
      cbn in Hwhy; injection Hwhy as <-; cbn; auto 10.
  - exists text_no_change. split; [reflexivity | cbn; auto 10].
  - exists text_write_failed. split; [reflexivity | cbn; auto 10].
  - exists (text_success path). split; [reflexivity | cbn; auto 10].
Qed.

Lemma process_file_shows_one_message_witness :
  exists text : string,
    message_boxes
      (read_trace "a.exe" (file_with pe_unknown_magic)
       ++ [MessageBoxW (text_error unknown_optional_header_type); Free])
    = [text]
    /\ In text
         [text_read_failed "a.exe";
          text_error file_too_small; text_error not_a_PE_file;
          text_error invalid_e_lfanew; text_error PE_signature_missing;
          text_error unknown_optional_header_type;
          text_no_change; text_write_failed; text_success "a.exe"].
Proof.
  apply (process_file_shows_one_message "a.exe" (file_with pe_unknown_magic)).
  vm_compute. reflexivity.
Defined.

Lemma text_error_inj (a b : string) : text_error a = text_error b -> a = b.
Proof. unfold text_error. cbn [String.append]. congruence. Qed.

(** X10. Dropping the file again after a successful run changes nothing:
    any later run that reads back the bytes that were written shows "No
    change needed (already fixed)" and asks for no copy and no write. *)
Theorem process_file_again_needs_no_change
    (path path' : string) (rt rt' : runtime) (t : list event)
    (data : list byte) :
  process_file path rt = Finished t -> In (Fwrite data) t ->
  read_ok rt' -> fread_data rt' = data ->
  process_file path' rt'
  = Finished (read_trace path' rt' ++ [MessageBoxW text_no_change; Free]).
Proof.
  intros H Hin Hok Hdata. apply process_file_run in H.
  destruct (run_Fwrite _ _ _ _ H Hin) as (P & _).
  apply patch_after_Modified in P. rewrite <- Hdata in P.
  unfold process_file. rewrite (read_file_all_ok _ _ Hok).
  change (fix_pe_clear_dynamic_base (Z.of_nat (length (fread_data rt')))
            (fread_data rt')) with (patch (fread_data rt')).
  rewrite P. reflexivity.
Qed.

Lemma process_file_again_needs_no_change_witness :
  process_file "b.exe" (file_with pe64_flag_clear)
  = Finished (read_trace "b.exe" (file_with pe64_flag_clear)
              ++ [MessageBoxW text_no_change; Free]).
Proof.
  apply (process_file_again_needs_no_change
           "a.exe" "b.exe" (file_with pe64_flag_set)
           (file_with pe64_flag_clear)
           (read_trace "a.exe" (file_with pe64_flag_set)
            ++ [CopyFileW "a.exe" (String.append "a.exe" ".bak");
                Fopen "a.exe" "rb+"; Fwrite pe64_flag_clear; Fclose;
                MessageBoxW (text_success "a.exe"); Free])
           pe64_flag_clear).
  - vm_compute. reflexivity.
  - vm_compute. tauto.
  - vm_compute. repeat split.
  - reflexivity.
Defined.

(** X11. A message box "Error: why" means that the patch operation
    returned [false] with that reason on the bytes that were read, and
    that the run did nothing else than read, show the message and free the
    buffer: no copy, no write. *)
Theorem process_file_error_message
    (path why : string) (rt : runtime) (t : list event) :
  process_file path rt = Finished t ->
  In (MessageBoxW (text_error why)) t ->
  patch (fread_data rt)
  = Done (Result false false (Some why)) (fread_data rt)
  /\ t = read_trace path rt ++ [MessageBoxW (text_error why); Free].
Proof.
  intros H Hin. apply process_file_run in H.
  destruct (run_message _ _ _ _ H Hin)
    as [(E & _) | [(why' & E & P & T) | [(E & _) | [(E & _) | (E & _)]]]];
    try discriminate E.
  apply text_error_inj in E. subst why'. split; assumption.
Qed.

Lemma process_file_error_message_witness :
  patch (fread_data (file_with (zeros 10)))
  = Done (Result false false (Some file_too_small))
         (fread_data (file_with (zeros 10)))
  /\ read_trace "a.exe" (file_with (zeros 10))
     ++ [MessageBoxW (text_error file_too_small); Free]
     = read_trace "a.exe" (file_with (zeros 10))
       ++ [MessageBoxW (text_error file_too_small); Free].
Proof.
  apply (process_file_error_message
           "a.exe" file_too_small (file_with (zeros 10))).
  - vm_compute. reflexivity.
  - vm_compute. tauto.
Defined.

(** X12. A message box "Write failed (permission or file in use)" means
    that the file needed the patch and could not be opened for writing,
    after the copy to [path.bak] had been asked for: the file is not
    written, and the backup is not taken back. *)
Theorem process_file_write_failed_leaves_backup
    (path : string) (rt : runtime) (t : list event) :
  process_file path rt = Finished t ->
  In (MessageBoxW text_write_failed) t ->
  (exists buf', patch (fread_data rt) = Done Modified buf')
  /\ fopen_rb_plus rt = false
  /\ t = read_trace path rt
         ++ [CopyFileW path (String.append path ".bak");
             MessageBoxW text_write_failed; Free].
Proof.
  intros H Hin. apply process_file_run in H.
  destruct (run_message _ _ _ _ H Hin)
    as [(E & _) | [(why' & E & _) | [(E & _) | [(_ & P & W & T) | (E & _)]]]];
    try discriminate E.
  repeat split; assumption.
Qed.

Lemma process_file_write_failed_leaves_backup_witness :
  (exists buf',
      patch (fread_data (Runtime true 328 true pe32_flag_set false))
      = Done Modified buf')
  /\ fopen_rb_plus (Runtime true 328 true pe32_flag_set false) = false
  /\ read_trace "a.exe" (Runtime true 328 true pe32_flag_set false)
     ++ [CopyFileW "a.exe" (String.append "a.exe" ".bak");
         MessageBoxW text_write_failed; Free]
     = read_trace "a.exe" (Runtime true 328 true pe32_flag_set false)
       ++ [CopyFileW "a.exe" (String.append "a.exe" ".bak");
           MessageBoxW text_write_failed; Free].
Proof.
  apply (process_file_write_failed_leaves_backup
           "a.exe" (Runtime true 328 true pe32_flag_set false)).
  - vm_compute. reflexivity.
  - vm_compute. tauto.
Defined.

(** X13. With a path of 256 characters or more, a file that needs the
    patch makes [write_file_all] format a backup name that does not fit
    [bak[MAX_PATH]] with its terminator: the run leaves defined behaviour
    there, before any copy or write. *)
Theorem process_file_long_path_overruns_bak
    (path : string) (rt : runtime) (buf' : list byte) :
  read_ok rt -> patch (fread_data rt) = Done Modified buf' ->
  (256 <= String.length path)%nat ->
  process_file path rt = Undefined (read_trace path rt).
Proof.
  intros Hok P Hlong.
  unfold process_file. rewrite (read_file_all_ok _ _ Hok).
  change (fix_pe_clear_dynamic_base (Z.of_nat (length (fread_data rt)))
            (fread_data rt)) with (patch (fread_data rt)).
  rewrite P. cbn [returned modified Modified negb].
  unfold write_file_all. rewrite length_append.
  change (String.length ".bak") with 4%nat.
  destruct (Z.ltb_spec MAX_PATH (Z.of_nat (String.length path + 4) + 1))
    as [_ | Hfit]; [reflexivity |].
  unfold MAX_PATH in Hfit. lia.
Qed.

Lemma process_file_long_path_overruns_bak_witness :
  process_file long_path (file_with pe64_flag_set)
  = Undefined (read_trace long_path (file_with pe64_flag_set)).
Proof.
  apply (process_file_long_path_overruns_bak
           long_path (file_with pe64_flag_set) pe64_flag_clear).
  - vm_compute. repeat split.
  - vm_compute. reflexivity.
  - vm_compute. lia.
Defined.

(** * The bound of line 79, from both sides *)

(** X14. The bound is the size of the 64-bit headers whatever the file
    is: a buffer that starts with "MZ" and holds the whole of the 248 bytes
    of 32-bit NT headers at a non-negative [e_lfanew], but fewer than 264
    bytes from there to its end, is refused with "invalid e_lfanew"
    before its signature or magic is looked at. *)
Theorem patch_refuses_short_tail_after_PE32_headers (buf : list byte) :
  take 2 buf = MZ ->
  0 <= e_lfanew_of buf ->
  e_lfanew_of buf + sizeof IMAGE_NT_HEADERS32 <= Z.of_nat (length buf) ->
  Z.of_nat (length buf) < e_lfanew_of buf + sizeof IMAGE_NT_HEADERS64 ->
  patch buf = Done InvalidHeaderOffset buf.
Proof.
  rewrite sizeof_IMAGE_NT_HEADERS32, sizeof_IMAGE_NT_HEADERS64.
  intros Hmz He H32 H64. apply path_patch.
  pose proof (e_lfanew_of_range buf) as Hr.
  apply path_invalid_offset.
  - lia.
  - apply u16_at_MZ; [lia | assumption].
  - rewrite to_size_t_nonneg by lia. lia.
Qed.

Lemma patch_refuses_short_tail_after_PE32_headers_witness :
  patch (take 312 pe32_flag_set)
  = Done InvalidHeaderOffset (take 312 pe32_flag_set).
Proof.
  apply (patch_refuses_short_tail_after_PE32_headers (take 312 pe32_flag_set)).
  - vm_compute. reflexivity.
  - vm_compute. intros H. discriminate H.
  - vm_compute. intros H. discriminate H.
  - vm_compute. reflexivity.
Defined.


